(** * Vizio config flow (homeassistant/components/vizio/config_flow.py)

    A shallow embedding of the Vizio configuration flow of Home Assistant:
    the main flow [VizioConfigFlow] with its steps [user], [import],
    [zeroconf], [pair_tv], [pairing_complete] and [pairing_complete_import],
    and the options flow [VizioOptionsConfigFlow].

    Python dictionaries are finite maps from strings to values, Python
    exceptions are an error result, and the mutable flow object together
    with the entry registry and the device is an explicit state threaded
    through the steps. *)

From Stdlib Require Import ZArith Lia String Ascii DecimalString.
From stdpp Require Import base option list strings gmap.

Local Open Scope string_scope.

(** * Python values *)

(** The values the flow stores in its dictionaries: [None], strings and
    integers. *)
Inductive value : Type :=
| VNone
| VStr (s : string)
| VInt (z : Z).

#[global] Instance value_eq_dec : EqDecision value.
Proof. solve_decision. Defined.

Abbreviation dict := (gmap string value).

(** Python truthiness: [None], the empty string and [0] are false. *)
Definition truthy (v : value) : bool :=
  match v with
  | VNone => false
  | VStr s => negb (bool_decide (s = ""))
  | VInt z => negb (bool_decide (z = 0%Z))
  end.

(** Exceptions a step can raise. [AbortFlow] is the framework's exception
    that ends a flow with a reason, [UnknownStep] its answer to a step the
    flow does not have; [RecursionError] is raised when the interpreter's
    recursion limit is exhausted. *)
Inductive exn : Type :=
| KeyError (k : string)
| AttributeError
| TypeError
| RecursionError
| UnknownStep
| AbortFlow (reason : string).

Inductive result (A : Type) : Type :=
| Ok (a : A)
| Raise (e : exn).
Arguments Ok {A} a.
Arguments Raise {A} e.

#[global] Instance result_ret : MRet result := fun A a => Ok a.
#[global] Instance result_bind : MBind result := fun A B k r =>
  match r with
  | Ok a => k a
  | Raise e => Raise e
  end.

(** [d[k]]: raises [KeyError] when the key is missing. *)
Definition subscript (d : dict) (k : string) : result value :=
  match d !! k with
  | Some v => Ok v
  | None => Raise (KeyError k)
  end.

(** [d.get(k)] and [d.get(k, dflt)]. *)
Definition py_get (d : dict) (k : string) : value := default VNone (d !! k).
Definition py_get_default (d : dict) (k : string) (dflt : value) : value :=
  default dflt (d !! k).

(** [dict.update]: the keys of [upd] override those of [d]. *)
Definition py_update (d upd : dict) : dict := upd ∪ d.

(** ** Strings *)

(** [s.split(":")[0]]: the part of [s] before its first colon, the whole
    string when it has none. *)
Fixpoint split_colon_0 (s : string) : string :=
  match s with
  | EmptyString => EmptyString
  | String c s' =>
      if Ascii.eqb c ":"%char then EmptyString else String c (split_colon_0 s')
  end.

(** The method call [v.split(":")[0]] on a value: only strings have it. *)
Definition value_split_colon_0 (v : value) : result string :=
  match v with
  | VStr s => Ok (split_colon_0 s)
  | _ => Raise AttributeError
  end.

(** [s[:stop]], Python's slice with a possibly negative end. *)
Definition py_slice_to (s : string) (stop : Z) : string :=
  let n := Z.of_nat (String.length s) in
  let stop' := if (stop <? 0)%Z then Z.max 0 (stop + n) else Z.min stop n in
  substring 0 (Z.to_nat stop') s.

(** [len(v)] and [v[:stop]] on values: strings only. *)
Definition py_len (v : value) : result Z :=
  match v with
  | VStr s => Ok (Z.of_nat (String.length s))
  | _ => Raise TypeError
  end.

Definition value_slice_to (v : value) (stop : Z) : result value :=
  match v with
  | VStr s => Ok (VStr (py_slice_to s stop))
  | _ => Raise TypeError
  end.

(** [str(v)], as an f-string formats a value. *)
Definition py_str (v : value) : string :=
  match v with
  | VNone => "None"
  | VStr s => s
  | VInt z => NilZero.string_of_int (Z.to_int z)
  end.

(** * Constants *)

(** Modelled from the spec: the dictionary keys of [homeassistant.const] and
    of the component's [const] module are not part of the source file; they
    are spelled here as the field names of the spec's data model. Only that
    they are pairwise distinct matters to the flow. *)
Definition CONF_ACCESS_TOKEN : string := "accessToken".
Definition CONF_DEVICE_CLASS : string := "deviceClass".
Definition CONF_HOST : string := "host".
Definition CONF_NAME : string := "name".
Definition CONF_PIN : string := "pin".
Definition CONF_PORT : string := "port".
Definition CONF_TYPE : string := "type".
Definition CONF_VOLUME_STEP : string := "volumeStep".

(** Modelled from the spec: the device classes ([deviceClass: "speaker"],
    enum TV / Speaker) of [homeassistant.components.media_player]. *)
Definition DEVICE_CLASS_SPEAKER : value := VStr "speaker".
Definition DEVICE_CLASS_TV : value := VStr "tv".

(** Modelled from the spec: the default volume step of the component's
    [const] module (the spec: default 1). *)
Definition DEFAULT_VOLUME_STEP : value := VInt 1.

(** Modelled from the spec: the trigger source of a flow
    ([SOURCE_USER], [SOURCE_IMPORT], [SOURCE_ZEROCONF] of
    [homeassistant.config_entries]), an enum User / Import / Discovery. *)
Inductive Source : Type := SOURCE_USER | SOURCE_IMPORT | SOURCE_ZEROCONF.

#[global] Instance Source_eq_dec : EqDecision Source.
Proof. solve_decision. Defined.

(** * Voluptuous schemas *)

(** The validators the flow builds its schemas from. *)
#[warnings="-register-all"]
Inductive validator : Type :=
| v_str
| v_Lower
| v_In (choices : list value)
| v_Coerce_int
| v_Range (lo hi : Z)
| v_All (vs : list validator).

Inductive marker : Type :=
| Required (key : string) (dflt : value)
| Optional (key : string) (dflt : value).

Inductive extra_keys : Type := PREVENT_EXTRA | ALLOW_EXTRA | REMOVE_EXTRA.

Record Schema : Type := mkSchema {
  schema_fields : list (marker * validator);
  schema_extra : extra_keys
}.

(** * The framework's data *)

(** Modelled from the spec: a persisted [ConfigEntry] of
    [homeassistant.config_entries]: its title, its data record, its separate
    options record, and the unique identifier it claims. *)
Record ConfigEntry : Type := mkEntry {
  entry_title : value;
  entry_data : dict;
  entry_options : dict;
  entry_unique_id : option string
}.

(** Modelled from the spec: the context of a flow, its trigger source and the
    unique identifier it has claimed so far. *)
Record Context : Type := mkContext {
  source : Source;
  unique_id : option string
}.

(** Modelled from the spec: what a step returns to the flow manager
    ([async_show_form], [async_create_entry], [async_abort] of
    [homeassistant.data_entry_flow]): a form to show, an entry to create, or
    an abort with a reason. *)
Inductive FlowResult : Type :=
| Form (step_id : string) (data_schema : Schema) (errors : gmap string string)
       (description_placeholders : option dict)
| CreateEntry (title : value) (data : dict)
| Abort (reason : string).

(** ** The device client (pyvizio) *)

(** What [start_pair] returns on success. *)
Record PairData : Type := mkPairData {
  ch_type : value;
  token : value
}.

(** The calls the flow makes to the device library, with the results the
    spec's [DeviceClient] interface gives them. Each is a network call: it
    reads and advances a state of the world the flow does not control.
    [start_pair host name device_class] stands for
    [VizioAsync(DEVICE_ID, host, name, None, device_class).start_pair()], and
    [pair host name device_class ch_type token pin] for the [pair] call on
    the same object; both return [None] on failure. *)
Class DeviceClient (World : Type) : Type := mkDevice {
  get_unique_id : value -> value -> value -> World -> string * World;
  validate_ha_config : value -> value -> value -> World -> bool * World;
  async_guess_device_type : value -> World -> value * World;
  start_pair : value -> value -> value -> World -> option PairData * World;
  pair : value -> value -> value -> value -> value -> value -> World ->
         option value * World
}.

(** * The flow object *)

(** The fields of [VizioConfigFlow], as [__init__] declares them, and the
    framework's [context]. *)
Record Flow : Type := mkFlow {
  _user_schema : option Schema;
  _must_show_form : option bool;
  _ch_type : value;
  _pairing_token : value;
  _data : option dict;
  context : Context
}.

(** [VizioConfigFlow.__init__]: every field starts as [None]. *)
Definition init_flow (ctx : Context) : Flow :=
  {| _user_schema := None; _must_show_form := None; _ch_type := VNone;
     _pairing_token := VNone; _data := None; context := ctx |}.

(** Truthiness of the flag [_must_show_form] ([None] at first). *)
Definition flag (b : option bool) : bool := default false b.
Arguments flag : simpl never.

Definition set_user_schema (s : option Schema) (f : Flow) : Flow :=
  {| _user_schema := s; _must_show_form := _must_show_form f;
     _ch_type := _ch_type f; _pairing_token := _pairing_token f;
     _data := _data f; context := context f |}.
Definition set_must_show_form (b : bool) (f : Flow) : Flow :=
  {| _user_schema := _user_schema f; _must_show_form := Some b;
     _ch_type := _ch_type f; _pairing_token := _pairing_token f;
     _data := _data f; context := context f |}.
Definition set_ch_type (v : value) (f : Flow) : Flow :=
  {| _user_schema := _user_schema f; _must_show_form := _must_show_form f;
     _ch_type := v; _pairing_token := _pairing_token f;
     _data := _data f; context := context f |}.
Definition set_pairing_token (v : value) (f : Flow) : Flow :=
  {| _user_schema := _user_schema f; _must_show_form := _must_show_form f;
     _ch_type := _ch_type f; _pairing_token := v;
     _data := _data f; context := context f |}.
Definition set_data (d : option dict) (f : Flow) : Flow :=
  {| _user_schema := _user_schema f; _must_show_form := _must_show_form f;
     _ch_type := _ch_type f; _pairing_token := _pairing_token f;
     _data := d; context := context f |}.
Definition set_unique_id (u : option string) (f : Flow) : Flow :=
  {| _user_schema := _user_schema f; _must_show_form := _must_show_form f;
     _ch_type := _ch_type f; _pairing_token := _pairing_token f;
     _data := _data f;
     context := {| source := source (context f); unique_id := u |} |}.

(** The constants [DEFAULT_NAME] and [DEFAULT_DEVICE_CLASS] of the
    component's [const] module, which the flow only passes on as form
    defaults. *)
Class ComponentConst : Type := mkConst {
  DEFAULT_NAME : value;
  DEFAULT_DEVICE_CLASS : value
}.

(** * The state a step runs in *)

Section WithDevice.

Context {World : Type}.

(** The entry registry ([hass.config_entries]) with the entries of this
    domain, the contexts of the other flows of this handler that are in
    progress, the world the device lives in, and the flow object itself. *)
Record St : Type := mkSt {
  entries : list ConfigEntry;
  in_progress : list Context;
  world : World;
  flow : Flow
}.

Definition with_entries (es : list ConfigEntry) (st : St) : St :=
  {| entries := es; in_progress := in_progress st; world := world st;
     flow := flow st |}.
Definition with_world (w : World) (st : St) : St :=
  {| entries := entries st; in_progress := in_progress st; world := w;
     flow := flow st |}.
Definition with_flow (f : Flow) (st : St) : St :=
  {| entries := entries st; in_progress := in_progress st; world := world st;
     flow := f |}.

(** A step is a computation on the state that returns or raises; what it
    changed before raising stays changed. *)
Definition M (A : Type) : Type := St -> result A * St.

#[global] Instance M_ret : MRet M := fun A a st => (Ok a, st).
#[global] Instance M_bind : MBind M := fun A B k m st =>
  match m st with
  | (Ok a, st') => k a st'
  | (Raise e, st') => (Raise e, st')
  end.

Definition lift {A} (r : result A) : M A := fun st => (r, st).
Definition get_flow : M Flow := fun st => (Ok (flow st), st).
Definition modify_flow (f : Flow -> Flow) : M unit :=
  fun st => (Ok tt, with_flow (f (flow st)) st).
Definition get_entries : M (list ConfigEntry) := fun st => (Ok (entries st), st).
Definition call_device {A} (f : World -> A * World) : M A :=
  fun st => let '(a, w) := f (world st) in (Ok a, with_world w st).

(** [self._data[k]]: [TypeError] while [_data] is still [None]. *)
Definition self_data : M dict :=
  fl ← get_flow;
  match _data fl with
  | Some d => mret d
  | None => lift (Raise TypeError)
  end.

End WithDevice.
Arguments St : clear implicits.
Arguments M : clear implicits.

(** * The component *)

Section Component.

(** The constants, the world the device lives in, and the device library. *)
Context {consts : ComponentConst} {World : Type} {dev : DeviceClient World}.

Abbreviation M := (M World).
Abbreviation St := (St World).

(** [_get_config_schema(input_dict)]: the schema of the configuration form,
    with the values already provided as defaults. *)
Definition _get_config_schema (input_dict : option dict) : Schema :=
  let input_dict := default ∅ input_dict in
  {| schema_fields :=
       [ (Required CONF_NAME (py_get_default input_dict CONF_NAME DEFAULT_NAME),
          v_str);
         (Required CONF_HOST (py_get input_dict CONF_HOST), v_str);
         (Required CONF_DEVICE_CLASS
            (py_get_default input_dict CONF_DEVICE_CLASS DEFAULT_DEVICE_CLASS),
          v_All [v_str; v_Lower; v_In [DEVICE_CLASS_TV; DEVICE_CLASS_SPEAKER]]);
         (Optional CONF_ACCESS_TOKEN
            (py_get_default input_dict CONF_ACCESS_TOKEN (VStr "")),
          v_str) ];
     schema_extra := REMOVE_EXTRA |}.

(** [_get_pairing_schema(input_dict)]: the schema of the PIN form. *)
Definition _get_pairing_schema (input_dict : option dict) : Schema :=
  let input_dict := default ∅ input_dict in
  {| schema_fields :=
       [ (Required CONF_PIN (py_get_default input_dict CONF_PIN (VStr "")),
          v_str) ];
     schema_extra := ALLOW_EXTRA |}.

(** [_host_is_same(host1, host2)]: equal up to the first colon. *)
Definition _host_is_same (host1 host2 : value) : result bool :=
  h1 ← value_split_colon_0 host1;
  h2 ← value_split_colon_0 host2;
  mret (bool_decide (h1 = h2)).

(** ** The framework's operations *)

(** Modelled from the spec: [async_show_form], [async_create_entry] and
    [async_abort] of the flow handler build the result the step returns; an
    absent [errors] argument is the empty map. *)
Definition async_show_form (step_id : string) (data_schema : Schema)
    (errors : gmap string string) (description_placeholders : option dict)
    : M FlowResult :=
  mret (Form step_id data_schema errors description_placeholders).
Definition async_create_entry (title : value) (data : dict) : M FlowResult :=
  mret (CreateEntry title data).
Definition async_abort (reason : string) : M FlowResult :=
  mret (Abort reason).

(** Modelled from the spec: [async_set_unique_id(unique_id,
    raise_on_progress=True)], the unique-identifier claim with
    raise-on-duplicate-in-progress semantics. The spec's finalization rejects
    with an abort ([already_configured]) if an in-progress session already
    claims the identifier; otherwise the flow's context records the claim. *)
Definition async_set_unique_id (uid : string) (raise_on_progress : bool)
    : M unit :=
  fun st =>
    if raise_on_progress
       && bool_decide (Some uid ∈ unique_id <$> in_progress st)
    then (Raise (AbortFlow "already_configured"), st)
    else (Ok tt, with_flow (set_unique_id (Some uid) (flow st)) st).

(** Modelled from the spec: [_abort_if_unique_id_configured()] rejects with
    an abort ([already_configured]) if an existing entry already claims the
    flow's unique identifier. *)
Definition _abort_if_unique_id_configured : M unit :=
  fun st =>
    match unique_id (context (flow st)) with
    | None => (Ok tt, st)
    | Some uid =>
        if bool_decide (Some uid ∈ entry_unique_id <$> entries st)
        then (Raise (AbortFlow "already_configured"), st)
        else (Ok tt, st)
    end.

(** Modelled from the spec: [async_update_entry(entry, data, options)]
    ([updateEntry] of the entry store) replaces the data and the options of
    an existing entry, here the [i]-th of the registry. *)
Definition update_entry (data options : dict) (e : ConfigEntry) : ConfigEntry :=
  {| entry_title := entry_title e; entry_data := data;
     entry_options := options; entry_unique_id := entry_unique_id e |}.
Definition async_update_entry (i : nat) (data options : dict) : M unit :=
  fun st =>
    (Ok tt, with_entries (alter (update_entry data options) i (entries st)) st).

(** ** [VizioOptionsConfigFlow] *)

(** [vol.All(vol.Coerce(int), vol.Range(min=1, max=10))]. *)
Definition volume_step_validator : validator :=
  v_All [v_Coerce_int; v_Range 1 10].

(** The schema of the form of step [init]. *)
Definition options_schema (config_entry : ConfigEntry) : Schema :=
  {| schema_fields :=
       [ (Optional CONF_VOLUME_STEP
            (py_get_default (entry_options config_entry) CONF_VOLUME_STEP
               DEFAULT_VOLUME_STEP),
          volume_step_validator) ];
     schema_extra := PREVENT_EXTRA |}.

(** [async_step_init]: with input, the result carries the input as data;
    without, the form with the single field [volume_step]. The step reads
    nothing but its entry and calls nothing. *)
Definition options_async_step_init (config_entry : ConfigEntry)
    (user_input : option dict) : FlowResult :=
  match user_input with
  | Some user_input => CreateEntry (VStr "") user_input
  | None => Form "init" (options_schema config_entry) ∅ None
  end.

(** ** [VizioConfigFlow] *)

(** [_create_entry_if_unique(input_dict)]. *)
Definition _create_entry_if_unique (input_dict : dict) : M FlowResult :=
  host ← lift (subscript input_dict CONF_HOST);
  cls ← lift (subscript input_dict CONF_DEVICE_CLASS);
  uid ← call_device
    (get_unique_id host (py_get input_dict CONF_ACCESS_TOKEN) cls);
  async_set_unique_id uid true;;
  _abort_if_unique_id_configured;;
  title ← lift (subscript input_dict CONF_NAME);
  async_create_entry title input_dict.

(** The loop of [async_step_user] over the existing entries: both tests are
    made for every entry. *)
Fixpoint user_conflicts (es : list ConfigEntry) (user_input : dict)
    (errors : gmap string string) : result (gmap string string) :=
  match es with
  | [] => Ok errors
  | entry :: es' =>
      h1 ← subscript (entry_data entry) CONF_HOST;
      h2 ← subscript user_input CONF_HOST;
      same ← _host_is_same h1 h2;
      let errors :=
        if (same : bool) then <[CONF_HOST := "host_exists"]> errors else errors in
      n1 ← subscript (entry_data entry) CONF_NAME;
      n2 ← subscript user_input CONF_NAME;
      let errors :=
        if decide (n1 = n2) then <[CONF_NAME := "name_exists"]> errors
        else errors in
      user_conflicts es' user_input errors
  end.

(** [vol.Schema({})], the schema of a form without fields. *)
Definition empty_schema : Schema :=
  {| schema_fields := []; schema_extra := PREVENT_EXTRA |}.

(** [_pairing_complete(step_id)]: the confirmation form once, the entry on
    the next round. *)
Definition _pairing_complete (step_id : string) : M FlowResult :=
  fl ← get_flow;
  if negb (flag (_must_show_form fl)) then
    data ← self_data;
    _create_entry_if_unique data
  else
    modify_flow (set_must_show_form false);;
    data ← self_data;
    tok ← lift (subscript data CONF_ACCESS_TOKEN);
    async_show_form step_id empty_schema ∅ (Some {["access_token" := tok]}).

Definition async_step_pairing_complete (user_input : option dict)
    : M FlowResult :=
  _pairing_complete "pairing_complete".

Definition async_step_pairing_complete_import (user_input : option dict)
    : M FlowResult :=
  _pairing_complete "pairing_complete_import".

(** [async_step_pair_tv(user_input)]. The step calls itself once pairing has
    started; [depth] is what is left of the interpreter's recursion limit. *)
Fixpoint async_step_pair_tv (depth : nat) (user_input : option dict)
    : M FlowResult :=
  match depth with
  | O => lift (Raise RecursionError)
  | S depth' =>
      fl ← get_flow;
      if negb (truthy (_ch_type fl)) && negb (truthy (_pairing_token fl)) then
        data ← self_data;
        host ← lift (subscript data CONF_HOST);
        name ← lift (subscript data CONF_NAME);
        cls ← lift (subscript data CONF_DEVICE_CLASS);
        pair_data ← call_device (start_pair host name cls);
        match pair_data with
        | Some pd =>
            modify_flow (set_ch_type (ch_type pd));;
            modify_flow (set_pairing_token (token pd));;
            async_step_pair_tv depth' None
        | None =>
            async_show_form "user" (_get_config_schema (Some data))
              {["base" := "cant_connect"]} None
        end
      else
        let pin := py_get (default ∅ user_input) CONF_PIN in
        if bool_decide (default ∅ user_input ≠ ∅) && truthy pin then
          data ← self_data;
          host ← lift (subscript data CONF_HOST);
          name ← lift (subscript data CONF_NAME);
          cls ← lift (subscript data CONF_DEVICE_CLASS);
          auth ← call_device
            (pair host name cls (_ch_type fl) (_pairing_token fl) pin);
          match auth with
          | Some auth_token =>
              modify_flow (set_data (Some (<[CONF_ACCESS_TOKEN := auth_token]> data)));;
              modify_flow (set_must_show_form true);;
              fl ← get_flow;
              if decide (source (context fl) = SOURCE_IMPORT)
              then async_step_pairing_complete_import None
              else async_step_pairing_complete None
          | None =>
              async_show_form "pair_tv" (_get_pairing_schema user_input)
                {[CONF_PIN := "complete_pairing_failed"]} None
          end
        else
          async_show_form "pair_tv" (_get_pairing_schema user_input) ∅ None
  end.

(** [async_step_user(user_input)]. The two log calls of the source write to
    the logger only and are left out. *)
Definition async_step_user (depth : nat) (user_input : option dict)
    : M FlowResult :=
  let show_form (errors : gmap string string) : M FlowResult :=
    fl ← get_flow;
    let schema := default (_get_config_schema None) (_user_schema fl) in
    async_show_form "user" schema errors None in
  match user_input with
  | None => show_form ∅
  | Some user_input =>
      modify_flow (set_user_schema (Some (_get_config_schema (Some user_input))));;
      es ← get_entries;
      errors ← lift (user_conflicts es user_input ∅);
      if decide (errors = ∅) then
        fl ← get_flow;
        if flag (_must_show_form fl)
           && bool_decide (source (context fl) = SOURCE_ZEROCONF) then
          modify_flow (set_must_show_form false);;
          show_form errors
        else
          cls ← lift (subscript user_input CONF_DEVICE_CLASS);
          if bool_decide (cls = DEVICE_CLASS_SPEAKER)
             || truthy (py_get user_input CONF_ACCESS_TOKEN) then
            host ← lift (subscript user_input CONF_HOST);
            cls ← lift (subscript user_input CONF_DEVICE_CLASS);
            valid ← call_device
              (validate_ha_config host
                 (py_get user_input CONF_ACCESS_TOKEN) cls);
            let errors :=
              if (valid : bool) then errors
              else <["base" := "cant_connect"]> errors in
            if decide (errors = ∅) then _create_entry_if_unique user_input
            else show_form errors
          else if flag (_must_show_form fl)
                  && bool_decide (source (context fl) = SOURCE_IMPORT) then
            modify_flow (set_must_show_form false);;
            show_form errors
          else
            modify_flow (set_data (Some user_input));;
            async_step_pair_tv depth None
      else show_form errors
  end.

(** The loop of [async_step_import] over the existing entries: the first
    entry with the same host ends the flow, updated or not. [i] is the
    position of [es] in the registry. *)
Fixpoint import_entries (i : nat) (es : list ConfigEntry) (import_config : dict)
    : M (option FlowResult) :=
  match es with
  | [] => mret None
  | entry :: es' =>
      h1 ← lift (subscript (entry_data entry) CONF_HOST);
      h2 ← lift (subscript import_config CONF_HOST);
      same ← lift (_host_is_same h1 h2);
      if (same : bool) then
        n1 ← lift (subscript (entry_data entry) CONF_NAME);
        n2 ← lift (subscript import_config CONF_NAME);
        let updated_name : dict :=
          if decide (n1 ≠ n2) then {[CONF_NAME := n2]} else ∅ in
        v2 ← lift (subscript import_config CONF_VOLUME_STEP);
        let updated_options : dict :=
          if decide (py_get (entry_data entry) CONF_VOLUME_STEP ≠ v2)
          then {[CONF_VOLUME_STEP := v2]} else ∅ in
        if bool_decide (updated_options ≠ ∅) || bool_decide (updated_name ≠ ∅)
        then
          let new_data := entry_data entry in
          let new_options := entry_options entry in
          let new_data :=
            if bool_decide (updated_name ≠ ∅)
            then py_update new_data updated_name else new_data in
          let new_data :=
            if bool_decide (updated_options ≠ ∅)
            then py_update new_data updated_options else new_data in
          let new_options :=
            if bool_decide (updated_options ≠ ∅)
            then py_update new_options updated_options else new_options in
          async_update_entry i new_data new_options;;
          r ← async_abort "updated_entry";
          mret (Some r)
        else
          r ← async_abort "already_setup";
          mret (Some r)
      else import_entries (S i) es' import_config
  end.

(** [async_step_import(import_config)]. *)
Definition async_step_import (depth : nat) (import_config : dict)
    : M FlowResult :=
  es ← get_entries;
  r ← import_entries 0 es import_config;
  match r with
  | Some r => mret r
  | None =>
      modify_flow (set_must_show_form true);;
      async_step_user depth (Some import_config)
  end.

(** The loop of [async_step_zeroconf] over the existing entries. *)
Fixpoint zeroconf_entries (es : list ConfigEntry) (discovery_info : dict)
    : M (option FlowResult) :=
  match es with
  | [] => mret None
  | entry :: es' =>
      h1 ← lift (subscript (entry_data entry) CONF_HOST);
      h2 ← lift (subscript discovery_info CONF_HOST);
      same ← lift (_host_is_same h1 h2);
      if (same : bool) then
        r ← async_abort "already_setup";
        mret (Some r)
      else zeroconf_entries es' discovery_info
  end.

(** [async_step_zeroconf(discovery_info)]. *)
Definition async_step_zeroconf (depth : nat) (discovery_info : option dict)
    : M FlowResult :=
  match discovery_info with
  | None => lift (Raise TypeError)
  | Some discovery_info =>
      host ← lift (subscript discovery_info CONF_HOST);
      bare ← lift (value_split_colon_0 host);
      async_set_unique_id bare true;;
      port ← lift (subscript discovery_info CONF_PORT);
      let discovery_info :=
        <[CONF_HOST := VStr (py_str host ++ ":" ++ py_str port)]> discovery_info in
      es ← get_entries;
      r ← zeroconf_entries es discovery_info;
      match r with
      | Some r => mret r
      | None =>
          type ← lift (subscript discovery_info CONF_TYPE);
          n ← lift (py_len type);
          let num_chars_to_strip := (n + 1)%Z in
          name ← lift (subscript discovery_info CONF_NAME);
          name ← lift (value_slice_to name (- num_chars_to_strip));
          let discovery_info := <[CONF_NAME := name]> discovery_info in
          host ← lift (subscript discovery_info CONF_HOST);
          cls ← call_device (async_guess_device_type host);
          let discovery_info := <[CONF_DEVICE_CLASS := cls]> discovery_info in
          modify_flow (set_must_show_form true);;
          async_step_user depth (Some discovery_info)
      end
  end.

(** ** The flow manager *)

(** Modelled from the spec: the flow manager runs a step of a flow and acts
    on what it returns. An [AbortFlow] raised inside the step ends the flow
    with an abort of that reason; a created entry is persisted in the
    registry ([createEntry] of the entry store) with the title and data of
    the result, empty options and the unique identifier the flow claimed. *)
Definition persist (title : value) (data : dict) (st : St) : St :=
  with_entries
    (entries st ++
       [ {| entry_title := title; entry_data := data; entry_options := ∅;
            entry_unique_id := unique_id (context (flow st)) |} ]) st.

Definition run_step (step : M FlowResult) : M FlowResult :=
  fun st =>
    match step st with
    | (Ok (CreateEntry title data), st') =>
        (Ok (CreateEntry title data), persist title data st')
    | (Raise (AbortFlow reason), st') => (Ok (Abort reason), st')
    | r => r
    end.

(** Modelled from the spec: a flow resumes where it left off: the manager
    hands the next input to the step whose form was shown last
    ([async_step_<step_id>]). *)
Definition async_step (step_id : string) (depth : nat)
    (user_input : option dict) : M FlowResult :=
  if decide (step_id = "user") then async_step_user depth user_input
  else if decide (step_id = "pair_tv") then async_step_pair_tv depth user_input
  else if decide (step_id = "pairing_complete")
  then async_step_pairing_complete user_input
  else if decide (step_id = "pairing_complete_import")
  then async_step_pairing_complete_import user_input
  else lift (Raise UnknownStep).

(** Modelled from the spec: the options flow manager finishes an options
    flow on entry [i] by replacing the entry's options record wholesale with
    the data of the result. *)
Definition run_options_step (i : nat) (user_input : option dict)
    (es : list ConfigEntry) : option (FlowResult * list ConfigEntry) :=
  config_entry ← es !! i;
  match options_async_step_init config_entry user_input with
  | CreateEntry title data =>
      Some (CreateEntry title data,
            alter (update_entry (entry_data config_entry) data) i es)
  | r => Some (r, es)
  end.

End Component.

(** * Validation *)

(** [c.lower()] for an ASCII character. *)
Definition ascii_lower (c : ascii) : ascii :=
  let n := nat_of_ascii c in
  if (65 <=? n)%nat && (n <=? 90)%nat then ascii_of_nat (n + 32) else c.

(** [s.isascii()]. *)
Definition is_ascii (s : string) : bool :=
  forallb (fun c => (nat_of_ascii c <? 128)%nat) (list_ascii_of_string s).

(** What [s.lower()] is on ASCII text: the letters A to Z are lowered, and
    every other character is kept. *)
Fixpoint ascii_str_lower (s : string) : string :=
  match s with
  | EmptyString => EmptyString
  | String c s' => String (ascii_lower c) (ascii_str_lower s')
  end.

(** [str.lower], a primitive of the language. It lowers by the tables of
    Unicode, which are no part of the component: the interface fixes what it
    does to ASCII text and leaves the rest open. *)
Class PyStr := {
  str_lower : string -> string;
  str_lower_ascii :
    forall s, is_ascii s = true -> str_lower s = ascii_str_lower s }.

Section Validation.

(** [int(s)] on a string, a primitive of the language. *)
Variable py_int_of_str : string -> option Z.

Context {pystr : PyStr}.

(** [int(v)]: integers are kept, strings parsed, [None] refused. *)
Definition py_int (v : value) : option Z :=
  match v with
  | VInt z => Some z
  | VStr s => py_int_of_str s
  | VNone => None
  end.

(** What a validator makes of a value: the validated value, or [None] when
    voluptuous raises [Invalid]. [Lower] is [str(v).lower()]; [Range]
    accepts a value inside its bounds as it is and refuses any other; [All]
    chains its validators. *)
Fixpoint validate (v : validator) (x : value) : option value :=
  match v with
  | v_str => match x with VStr _ => Some x | _ => None end
  | v_Lower => Some (VStr (str_lower (py_str x)))
  | v_In choices => if bool_decide (x ∈ choices) then Some x else None
  | v_Coerce_int => VInt <$> py_int x
  | v_Range lo hi =>
      match x with
      | VInt z => if (lo <=? z)%Z && (z <=? hi)%Z then Some x else None
      | _ => None
      end
  | v_All vs =>
      (fix all (vs : list validator) (x : value) : option value :=
         match vs with
         | [] => Some x
         | v :: vs' =>
             match validate v x with
             | Some y => all vs' y
             | None => None
             end
         end) vs x
  end.

End Validation.

(** * Properties *)

(** ** Dictionaries and strings *)

Lemma subscript_Some (d : dict) k v : d !! k = Some v -> subscript d k = Ok v.
Proof. intros H. unfold subscript. by rewrite H. Qed.

Lemma py_slice_to_neg (s : string) (n : nat) :
  py_slice_to s (- (Z.of_nat n + 1)) = substring 0 (String.length s - (n + 1)) s.
Proof.
  unfold py_slice_to.
  assert (H : (- (Z.of_nat n + 1) <? 0)%Z = true) by (apply Z.ltb_lt; lia).
  rewrite H. f_equal. lia.
Qed.

Lemma substring_0_prefix (k : nat) (s : string) :
  String.prefix (substring 0 k s) s = true.
Proof.
  revert k. induction s as [|c s IH]; intros [|k]; cbn; try done.
  destruct (ascii_dec c c); [apply IH | done].
Qed.

Lemma substring_0_length (k : nat) (s : string) :
  String.length (substring 0 k s) = Nat.min k (String.length s).
Proof.
  revert k. induction s as [|c s IH]; intros [|k]; cbn; try done.
  by rewrite IH.
Qed.

Section Properties.

Context {consts : ComponentConst} {World : Type} {dev : DeviceClient World}.
Context {pystr : PyStr}.

Abbreviation St := (St World).
Abbreviation M := (M World).

(** ** Conflicts with the existing entries *)

(** The data model of a persisted entry: a host that is a string, and a
    name. *)
Definition wf_entry (e : ConfigEntry) : Prop :=
  (exists h, entry_data e !! CONF_HOST = Some (VStr h)) /\
  is_Some (entry_data e !! CONF_NAME).

(** Entry [e] has host [h], ports ignored. *)
Definition same_host (h : string) (e : ConfigEntry) : bool :=
  match entry_data e !! CONF_HOST with
  | Some (VStr h') => bool_decide (split_colon_0 h' = split_colon_0 h)
  | _ => false
  end.

(** Entry [e] has name [n], exactly. *)
Definition same_name (n : value) (e : ConfigEntry) : bool :=
  bool_decide (entry_data e !! CONF_NAME = Some n).

(** Some existing entry has the host / the name. *)
Definition host_taken (h : string) (es : list ConfigEntry) : Prop :=
  exists e, e ∈ es /\ same_host h e = true.
Definition name_taken (n : value) (es : list ConfigEntry) : Prop :=
  exists e, e ∈ es /\ same_name n e = true.

(** The errors the conflict check of step [user] attaches. *)
Definition conflict_errors (host_hit name_hit : bool)
    (errors : gmap string string) : gmap string string :=
  let errors :=
    if host_hit then <[CONF_HOST := "host_exists"]> errors else errors in
  if name_hit then <[CONF_NAME := "name_exists"]> errors else errors.

Lemma existsb_taken (P : ConfigEntry -> bool) (es : list ConfigEntry) :
  existsb P es = true <-> exists e, e ∈ es /\ P e = true.
Proof.
  rewrite existsb_exists. split; intros (e & He & HP); exists e;
    (split; [by apply list_elem_of_In | done]).
Qed.

Lemma conflict_errors_compose (a b c d : bool) (errors : gmap string string) :
  conflict_errors a b (conflict_errors c d errors)
  = conflict_errors (c || a) (d || b) errors.
Proof.
  unfold conflict_errors.
  destruct a, b, c, d; cbn; try done;
    apply map_eq; intros k; rewrite ?lookup_insert;
    repeat case_decide; simplify_eq; done.
Qed.

Lemma host_is_same_str (h1 h2 : string) :
  _host_is_same (VStr h1) (VStr h2)
  = Ok (bool_decide (split_colon_0 h1 = split_colon_0 h2)).
Proof. done. Qed.

(** The loop of step [user] visits every entry and collects both errors. *)
Lemma user_conflicts_spec (es : list ConfigEntry) (ui : dict) h n errors :
  Forall wf_entry es ->
  ui !! CONF_HOST = Some (VStr h) ->
  ui !! CONF_NAME = Some n ->
  user_conflicts es ui errors
  = Ok (conflict_errors (existsb (same_host h) es) (existsb (same_name n) es)
          errors).
Proof.
  intros Hwf Hh Hn. revert errors.
  induction Hwf as [|e es [[h' Hh'] [n' Hn']] _ IH]; intros errors; [done|].
  cbn [user_conflicts existsb].
  rewrite (subscript_Some _ _ _ Hh'), (subscript_Some _ _ _ Hh),
    (subscript_Some _ _ _ Hn'), (subscript_Some _ _ _ Hn).
  cbn [mbind result_bind]. rewrite host_is_same_str. cbn [mbind result_bind].
  rewrite IH. f_equal.
  rewrite <- conflict_errors_compose. f_equal.
  unfold conflict_errors, same_host, same_name. rewrite Hh', Hn'.
  destruct (decide (n' = n)) as [->|Hne].
  - by rewrite (bool_decide_eq_true_2 (Some n = Some n)).
  - by rewrite (bool_decide_eq_false_2 (Some n' = Some n)) by congruence.
Qed.

Lemma conflict_errors_empty (a b : bool) :
  conflict_errors a b ∅ = ∅ <-> a = false /\ b = false.
Proof.
  unfold conflict_errors. split.
  - intros H. destruct a, b; try done;
      apply (f_equal (fun m : gmap string string => m !! CONF_NAME)) in H
      || apply (f_equal (fun m : gmap string string => m !! CONF_HOST)) in H;
      rewrite ?lookup_insert_eq, ?lookup_empty in H; try done.
    all: apply (f_equal (fun m : gmap string string => m !! CONF_HOST)) in H;
      by rewrite ?lookup_insert_eq, ?lookup_empty in H.
  - by intros [-> ->].
Qed.

Lemma conflict_errors_host (a b : bool) :
  conflict_errors a b ∅ !! CONF_HOST = Some "host_exists" <-> a = true.
Proof.
  unfold conflict_errors.
  destruct a, b; cbn; rewrite ?lookup_insert, ?lookup_empty;
    repeat case_decide; try done; split; congruence.
Qed.

Lemma conflict_errors_name (a b : bool) :
  conflict_errors a b ∅ !! CONF_NAME = Some "name_exists" <-> b = true.
Proof.
  unfold conflict_errors.
  destruct a, b; cbn; rewrite ?lookup_insert, ?lookup_empty;
    repeat case_decide; try done; split; congruence.
Qed.

(** ** What the steps can return *)

Ltac unfold_M :=
  unfold self_data, async_show_form, async_create_entry, async_abort,
    async_set_unique_id, _abort_if_unique_id_configured, async_update_entry
    in *;
  unfold mbind, M_bind, mret, M_ret, lift, get_flow, modify_flow, get_entries,
    call_device in *.

(** Finalization returns a created entry or raises, and leaves the registry
    to the manager. *)
Lemma create_entry_if_unique_Ok (d : dict) (st st' : St) (r : FlowResult) :
  _create_entry_if_unique d st = (Ok r, st') ->
  (exists title, r = CreateEntry title d) /\ entries st' = entries st.
Proof.
  unfold _create_entry_if_unique. unfold_M. cbn.
  repeat case_match; intros; simplify_eq; eauto.
Qed.

Lemma create_entry_if_unique_entries (d : dict) (st st' : St) r :
  _create_entry_if_unique d st = (r, st') -> entries st' = entries st.
Proof.
  unfold _create_entry_if_unique. unfold_M. cbn.
  repeat case_match; intros; simplify_eq; eauto.
Qed.

Lemma pairing_complete_Form (sid : string) (st st' : St) s sch errors ph :
  _pairing_complete sid st = (Ok (Form s sch errors ph), st') ->
  errors = ∅.
Proof.
  unfold _pairing_complete. unfold_M. cbn.
  destruct (negb (flag (_must_show_form (flow st)))).
  - destruct (_data (flow st)); [|done]. intros H.
    apply create_entry_if_unique_Ok in H as [[t Ht] _]. done.
  - repeat case_match; intros; simplify_eq; eauto.
Qed.

Lemma pairing_complete_entries (sid : string) (st st' : St) r :
  _pairing_complete sid st = (r, st') -> entries st' = entries st.
Proof.
  unfold _pairing_complete. unfold_M. cbn.
  destruct (negb (flag (_must_show_form (flow st)))).
  - destruct (_data (flow st)); [|by intros [= _ <-]].
    apply create_entry_if_unique_entries.
  - repeat case_match; intros; simplify_eq; eauto.
Qed.

(** The forms of step [pair_tv] carry no error, or [cant_connect], or
    [complete_pairing_failed]. *)
Lemma pair_tv_Form (depth : nat) (ui : option dict) (st st' : St) s sch errors ph :
  async_step_pair_tv depth ui st = (Ok (Form s sch errors ph), st') ->
  errors = ∅ \/ errors = {["base" := "cant_connect"]}
  \/ errors = {[CONF_PIN := "complete_pairing_failed"]}.
Proof.
  revert ui st. induction depth as [|depth IH]; intros ui st; [done|].
  cbn [async_step_pair_tv]. unfold_M. cbn.
  destruct (negb (truthy (_ch_type (flow st)))
            && negb (truthy (_pairing_token (flow st)))).
  - destruct (_data (flow st)) as [d|]; [|done].
    destruct (subscript d CONF_HOST); [|done].
    destruct (subscript d CONF_NAME); [|done].
    destruct (subscript d CONF_DEVICE_CLASS); [|done].
    destruct (start_pair _ _ _ _) as [[pd|] w].
    + apply IH.
    + intros; simplify_eq; eauto.
  - destruct (_ && _); [|intros; simplify_eq; eauto].
    destruct (_data (flow st)) as [d|]; [|done].
    destruct (subscript d CONF_HOST); [|done].
    destruct (subscript d CONF_NAME); [|done].
    destruct (subscript d CONF_DEVICE_CLASS); [|done].
    destruct (pair _ _ _ _ _ _ _) as [[tok|] w]; [|intros; simplify_eq; eauto].
    cbn. case_decide; intros Hr; left;
      eapply pairing_complete_Form; exact Hr.
Qed.

Lemma pair_tv_entries (depth : nat) (ui : option dict) (st st' : St) r :
  async_step_pair_tv depth ui st = (r, st') -> entries st' = entries st.
Proof.
  revert ui st. induction depth as [|depth IH]; intros ui st;
    [by intros [= _ <-]|].
  cbn [async_step_pair_tv]. unfold_M. cbn.
  destruct (negb (truthy (_ch_type (flow st)))
            && negb (truthy (_pairing_token (flow st)))).
  - destruct (_data (flow st)) as [d|]; [|by intros [= _ <-]].
    destruct (subscript d CONF_HOST); [|by intros [= _ <-]].
    destruct (subscript d CONF_NAME); [|by intros [= _ <-]].
    destruct (subscript d CONF_DEVICE_CLASS); [|by intros [= _ <-]].
    destruct (start_pair _ _ _ _) as [[pd|] w].
    + intros H. by apply IH in H.
    + by intros [= _ <-].
  - destruct (_ && _); [|by intros [= _ <-]].
    destruct (_data (flow st)) as [d|]; [|by intros [= _ <-]].
    destruct (subscript d CONF_HOST); [|by intros [= _ <-]].
    destruct (subscript d CONF_NAME); [|by intros [= _ <-]].
    destruct (subscript d CONF_DEVICE_CLASS); [|by intros [= _ <-]].
    destruct (pair _ _ _ _ _ _ _) as [[tok|] w]; [|by intros [= _ <-]].
    cbn. case_decide; intros Hr; by apply pairing_complete_entries in Hr.
Qed.

Lemma run_step_Form (m : M FlowResult) (st st' : St) s sch errors ph :
  run_step m st = (Ok (Form s sch errors ph), st') ->
  m st = (Ok (Form s sch errors ph), st').
Proof.
  unfold run_step. destruct (m st) as [[[]|[]] st1]; intros; simplify_eq; done.
Qed.

Lemma host_taken_existsb (h : string) (es : list ConfigEntry) :
  host_taken h es <-> existsb (same_host h) es = true.
Proof. symmetry. apply existsb_taken. Qed.

Lemma name_taken_existsb (n : value) (es : list ConfigEntry) :
  name_taken n es <-> existsb (same_name n) es = true.
Proof. symmetry. apply existsb_taken. Qed.

(** The errors a form of step [user] can carry when the conflict check found
    nothing: none of the two conflict errors. *)
Lemma user_step_Form_no_conflict (depth : nat) (st st' : St) (ui : dict) h n
    s sch errors ph :
  Forall wf_entry (entries st) ->
  ui !! CONF_HOST = Some (VStr h) ->
  ui !! CONF_NAME = Some n ->
  existsb (same_host h) (entries st) = false ->
  existsb (same_name n) (entries st) = false ->
  async_step_user depth (Some ui) st = (Ok (Form s sch errors ph), st') ->
  errors !! CONF_HOST = None /\ errors !! CONF_NAME = None.
Proof.
  intros Hwf Hh Hn Ha Hb.
  unfold async_step_user. unfold_M. cbn.
  rewrite (user_conflicts_spec _ _ _ _ _ Hwf Hh Hn), Ha, Hb. cbn.
  rewrite decide_True by done.
  destruct (_ && _); [intros; by simplify_eq|].
  destruct (subscript ui CONF_DEVICE_CLASS) as [cls|]; [|done].
  destruct (_ || _).
  - rewrite (subscript_Some _ _ _ Hh).
    destruct (validate_ha_config _ _ _ _) as [[] w].
    + rewrite decide_True by done. intros Hr.
      apply create_entry_if_unique_Ok in Hr as [[t Ht] _]. done.
    + rewrite decide_False.
      * intros; by simplify_eq.
      * intros He. apply (f_equal (fun m : gmap string string => m !! "base")) in He.
        by rewrite lookup_insert_eq in He.
  - destruct (_ && _); [intros; by simplify_eq|].
    intros Hr. apply pair_tv_Form in Hr as [->|[->| ->]]; done.
Qed.

(** C2: in step [user] the conflict check visits all entries: a form the
    step returns carries [host_exists] exactly when some existing entry has
    the input's host, ports ignored, and [name_exists] exactly when some
    existing entry has the input's name; when a conflict is found the form
    of step [user] is shown again with these errors, both when both hold,
    and no entry is created. *)
Theorem user_step_conflict_check (depth : nat) (st : St) (ui : dict)
    (h : string) (n : value) :
  Forall wf_entry (entries st) ->
  ui !! CONF_HOST = Some (VStr h) ->
  ui !! CONF_NAME = Some n ->
  (forall s sch errors ph st',
      run_step (async_step_user depth (Some ui)) st
        = (Ok (Form s sch errors ph), st') ->
      (errors !! CONF_HOST = Some "host_exists" <-> host_taken h (entries st)) /\
      (errors !! CONF_NAME = Some "name_exists" <-> name_taken n (entries st))) /\
  (host_taken h (entries st) \/ name_taken n (entries st) ->
   exists errors st',
     run_step (async_step_user depth (Some ui)) st
       = (Ok (Form "user" (_get_config_schema (Some ui)) errors None), st') /\
     entries st' = entries st /\
     (host_taken h (entries st) -> errors !! CONF_HOST = Some "host_exists") /\
     (name_taken n (entries st) -> errors !! CONF_NAME = Some "name_exists")).
Proof.
  intros Hwf Hh Hn.
  pose proof (host_taken_existsb h (entries st)) as Hht.
  pose proof (name_taken_existsb n (entries st)) as Hnt.
  destruct (existsb (same_host h) (entries st)) eqn:Ha;
    destruct (existsb (same_name n) (entries st)) eqn:Hb.
  4: {
    split; [|intros [|]; intuition congruence].
    intros s sch errors ph st' Hr. apply run_step_Form in Hr.
    destruct (user_step_Form_no_conflict _ _ _ _ _ _ _ _ _ _ Hwf Hh Hn Ha Hb Hr)
      as [-> ->].
    intuition congruence. }
  all: assert (Hrun : run_step (async_step_user depth (Some ui)) st
      = (Ok (Form "user" (_get_config_schema (Some ui))
               (conflict_errors (existsb (same_host h) (entries st))
                  (existsb (same_name n) (entries st)) ∅) None),
         with_flow (set_user_schema (Some (_get_config_schema (Some ui)))
                      (flow st)) st));
    [ unfold run_step, async_step_user; unfold_M; cbn;
      rewrite (user_conflicts_spec _ _ _ _ _ Hwf Hh Hn); cbn -[conflict_errors];
      rewrite decide_False; [done|];
      intros He; apply (conflict_errors_empty _ _) in He as [? ?]; congruence |].
  all: split;
    [ intros s sch errors ph st' Hr; rewrite Hrun in Hr;
      injection Hr as <- <- <- <- <-;
      rewrite conflict_errors_host, conflict_errors_name, Ha, Hb; tauto
    | intros _; eexists _, _; split; [exact Hrun|];
      rewrite conflict_errors_host, conflict_errors_name, Ha, Hb; cbn; tauto ].
Qed.

(** ** Finalization *)

(** The identifier [uid] is claimed by an existing entry or by another flow
    in progress. *)
Definition claimed (uid : string) (st : St) : Prop :=
  Some uid ∈ entry_unique_id <$> entries st \/
  Some uid ∈ unique_id <$> in_progress st.

(** C7: finalization asks the device client for the unique identifier of
    host, access token and device class; when an existing entry or a flow in
    progress already claims it, the flow aborts with [already_configured]
    and the registry is unchanged; otherwise exactly one entry is added, with
    the pending config as data and its name as title. *)
Theorem create_entry_if_unique_finalizes (st : St) (input_dict : dict)
    (host cls name : value) (uid : string) (w : World) :
  input_dict !! CONF_HOST = Some host ->
  input_dict !! CONF_DEVICE_CLASS = Some cls ->
  input_dict !! CONF_NAME = Some name ->
  get_unique_id host (py_get input_dict CONF_ACCESS_TOKEN) cls (world st)
    = (uid, w) ->
  (claimed uid st ->
   exists st',
     run_step (_create_entry_if_unique input_dict) st
       = (Ok (Abort "already_configured"), st') /\
     entries st' = entries st) /\
  (~ claimed uid st ->
   exists st',
     run_step (_create_entry_if_unique input_dict) st
       = (Ok (CreateEntry name input_dict), st') /\
     entries st'
       = (entries st ++
          [ {| entry_title := name; entry_data := input_dict;
               entry_options := ∅; entry_unique_id := Some uid |} ])%list).
Proof.
  intros Hh Hc Hn Hu. unfold claimed.
  unfold run_step, _create_entry_if_unique. unfold_M.
  rewrite (subscript_Some _ _ _ Hh), (subscript_Some _ _ _ Hc), Hu,
    (subscript_Some _ _ _ Hn). cbn.
  destruct (bool_decide (Some uid ∈ unique_id <$> in_progress st)) eqn:Hp; cbn.
  - apply bool_decide_eq_true_1 in Hp. split; [eauto|tauto].
  - apply bool_decide_eq_false_1 in Hp.
    destruct (bool_decide (Some uid ∈ entry_unique_id <$> entries st)) eqn:He.
    + apply bool_decide_eq_true_1 in He. split; [eauto|tauto].
    + apply bool_decide_eq_false_1 in He. split; [tauto|eauto].
Qed.

(** ** Step [user] without conflicts *)

(** The state of step [user] once the input is saved as form defaults. *)
Definition saved_defaults (ui : dict) (st : St) : St :=
  with_flow (set_user_schema (Some (_get_config_schema (Some ui))) (flow st)) st.

Lemma user_conflicts_none (es : list ConfigEntry) (ui : dict) h n :
  Forall wf_entry es ->
  ui !! CONF_HOST = Some (VStr h) ->
  ui !! CONF_NAME = Some n ->
  ~ host_taken h es ->
  ~ name_taken n es ->
  user_conflicts es ui ∅ = Ok ∅.
Proof.
  intros Hwf Hh Hn Hht Hnt.
  rewrite (user_conflicts_spec _ _ _ _ _ Hwf Hh Hn).
  rewrite host_taken_existsb in Hht. rewrite name_taken_existsb in Hnt.
  apply not_true_is_false in Hht, Hnt. by rewrite Hht, Hnt.
Qed.

(** C5: step [user], no conflict and not the confirmation round of a
    discovery: for a speaker, or with an access token, the device client
    validates the config; on failure the form of step [user] is shown again
    with [cant_connect] and the registry is unchanged; on success the step
    is the finalization of the input, whatever recursion depth is left for
    pairing (none is needed). *)
Theorem user_step_validates (depth : nat) (st : St) (ui : dict)
    (h : string) (n cls : value) (valid : bool) (w : World) :
  Forall wf_entry (entries st) ->
  ui !! CONF_HOST = Some (VStr h) ->
  ui !! CONF_NAME = Some n ->
  ui !! CONF_DEVICE_CLASS = Some cls ->
  ~ host_taken h (entries st) ->
  ~ name_taken n (entries st) ->
  ~ (flag (_must_show_form (flow st)) = true /\
     source (context (flow st)) = SOURCE_ZEROCONF) ->
  cls = DEVICE_CLASS_SPEAKER \/ truthy (py_get ui CONF_ACCESS_TOKEN) = true ->
  validate_ha_config (VStr h) (py_get ui CONF_ACCESS_TOKEN) cls (world st)
    = (valid, w) ->
  run_step (async_step_user depth (Some ui)) st
  = if valid
    then run_step (_create_entry_if_unique ui) (with_world w (saved_defaults ui st))
    else (Ok (Form "user" (_get_config_schema (Some ui))
                {["base" := "cant_connect"]} None),
          with_world w (saved_defaults ui st)).
Proof.
  intros Hwf Hh Hn Hc Hht Hnt Hdisc Hcls Hv.
  unfold run_step, async_step_user. unfold_M. cbn.
  rewrite (user_conflicts_none _ _ _ _ Hwf Hh Hn Hht Hnt). cbn.
  rewrite decide_True by done.
  replace (flag (_must_show_form (flow st))
           && bool_decide (source (context (flow st)) = SOURCE_ZEROCONF))
    with false.
  2: { symmetry. apply andb_false_iff.
       destruct (flag (_must_show_form (flow st))); [right|by left].
       apply bool_decide_eq_false_2. tauto. }
  rewrite (subscript_Some _ _ _ Hc), (subscript_Some _ _ _ Hh).
  replace (bool_decide (cls = DEVICE_CLASS_SPEAKER)
           || truthy (py_get ui CONF_ACCESS_TOKEN)) with true.
  2: { symmetry. apply orb_true_iff.
       destruct Hcls as [->|Ht]; [left; by apply bool_decide_eq_true_2|by right]. }
  cbn. rewrite Hv. destruct valid.
  - rewrite decide_True by done. done.
  - rewrite decide_False; [done|].
    intros He. apply (f_equal (fun m : gmap string string => m !! "base")) in He.
    by rewrite lookup_insert_eq in He.
Qed.

(** The state of step [user] once the input is stashed as pending config. *)
Definition stashed (ui : dict) (st : St) : St :=
  with_flow (set_data (Some ui) (flow (saved_defaults ui st))) st.

(** C6: a conflict-free submission of class TV without access token, in
    neither the confirmation round of a discovery nor the warning round of
    an import, stashes the input as pending config and runs step [pair_tv];
    when pairing has not started and the [start_pair] call fails, the flow
    shows the form of step [user] with [cant_connect]. *)
Theorem user_step_starts_pairing (depth : nat) (st : St) (ui : dict)
    (h : string) (n : value) :
  Forall wf_entry (entries st) ->
  ui !! CONF_HOST = Some (VStr h) ->
  ui !! CONF_NAME = Some n ->
  ui !! CONF_DEVICE_CLASS = Some DEVICE_CLASS_TV ->
  truthy (py_get ui CONF_ACCESS_TOKEN) = false ->
  ~ host_taken h (entries st) ->
  ~ name_taken n (entries st) ->
  ~ (flag (_must_show_form (flow st)) = true /\
     source (context (flow st)) = SOURCE_ZEROCONF) ->
  ~ (flag (_must_show_form (flow st)) = true /\
     source (context (flow st)) = SOURCE_IMPORT) ->
  async_step_user depth (Some ui) st
    = async_step_pair_tv depth None (stashed ui st) /\
  _data (flow (stashed ui st)) = Some ui /\
  forall w,
    truthy (_ch_type (flow st)) = false ->
    truthy (_pairing_token (flow st)) = false ->
    start_pair (VStr h) n DEVICE_CLASS_TV (world st) = (None, w) ->
    run_step (async_step_user (S depth) (Some ui)) st
    = (Ok (Form "user" (_get_config_schema (Some ui))
             {["base" := "cant_connect"]} None),
       with_world w (stashed ui st)).
Proof.
  intros Hwf Hh Hn Hc Htok Hht Hnt Hdisc Himp.
  assert (Hstep : forall d, async_step_user d (Some ui) st
                     = async_step_pair_tv d None (stashed ui st)).
  { intros d. unfold async_step_user. unfold_M. cbn.
    rewrite (user_conflicts_none _ _ _ _ Hwf Hh Hn Hht Hnt). cbn.
    rewrite decide_True by done.
    replace (flag (_must_show_form (flow st))
             && bool_decide (source (context (flow st)) = SOURCE_ZEROCONF))
      with false.
    2: { symmetry. apply andb_false_iff.
         destruct (flag (_must_show_form (flow st))); [right|by left].
         apply bool_decide_eq_false_2. tauto. }
    rewrite (subscript_Some _ _ _ Hc), Htok. cbn.
    replace (flag (_must_show_form (flow st))
             && bool_decide (source (context (flow st)) = SOURCE_IMPORT))
      with false.
    2: { symmetry. apply andb_false_iff.
         destruct (flag (_must_show_form (flow st))); [right|by left].
         apply bool_decide_eq_false_2. tauto. }
    done. }
  split; [apply Hstep|]. split; [done|].
  intros w Hch Hpt Hsp. unfold run_step. rewrite Hstep.
  cbn [async_step_pair_tv]. unfold_M. cbn.
  rewrite Hch, Hpt. cbn.
  rewrite (subscript_Some _ _ _ Hh), (subscript_Some _ _ _ Hn),
    (subscript_Some _ _ _ Hc), Hsp.
  done.
Qed.

(** ** Step [import] *)

(** The loop of step [import] passes the entries with another host. *)
Lemma import_entries_skip (pre rest : list ConfigEntry) (i : nat) (ic : dict)
    (h : string) (st : St) :
  Forall wf_entry pre ->
  ic !! CONF_HOST = Some (VStr h) ->
  existsb (same_host h) pre = false ->
  import_entries i (pre ++ rest) ic st
  = import_entries (i + length pre) rest ic st.
Proof.
  intros Hwf Hh. revert i.
  induction Hwf as [|e pre [[h' Hh'] _] _ IH]; intros i Hex.
  - cbn. by rewrite Nat.add_0_r.
  - cbn [existsb] in Hex. apply orb_false_iff in Hex as [He Hex].
    cbn [app import_entries]. unfold_M.
    rewrite (subscript_Some _ _ _ Hh'), (subscript_Some _ _ _ Hh).
    rewrite host_is_same_str.
    unfold same_host in He. rewrite Hh' in He. rewrite He.
    rewrite (IH (S i) Hex). cbn [length]. f_equal. lia.
Qed.

(** The data and the options of an entry after the merge of an import with
    name [n2] and volume step [v2]. *)
Definition merged_data (e : ConfigEntry) (n2 v2 : value) : dict :=
  let d := entry_data e in
  let d := if decide (d !! CONF_NAME = Some n2) then d else <[CONF_NAME := n2]> d in
  if decide (py_get (entry_data e) CONF_VOLUME_STEP = v2) then d
  else <[CONF_VOLUME_STEP := v2]> d.
Definition merged_options (e : ConfigEntry) (v2 : value) : dict :=
  if decide (py_get (entry_data e) CONF_VOLUME_STEP = v2) then entry_options e
  else <[CONF_VOLUME_STEP := v2]> (entry_options e).

Lemma py_update_singleton (d : dict) (k : string) (v : value) :
  py_update d {[k := v]} = <[k := v]> d.
Proof. unfold py_update. by rewrite insert_union_singleton_l. Qed.

Lemma singleton_ne_empty (k : string) (v : value) :
  ({[k := v]} : dict) ≠ ∅.
Proof.
  intros H. apply (f_equal (fun m : dict => m !! k)) in H.
  by rewrite lookup_singleton_eq, lookup_empty in H.
Qed.

(** What step [import] does when it meets the entry [e] of its host. *)
Lemma import_step_run (depth : nat) (st : St) (ic : dict)
    (pre post : list ConfigEntry) (e : ConfigEntry) (h : string)
    (n1 n2 v2 : value) :
  entries st = (pre ++ e :: post)%list ->
  Forall wf_entry pre ->
  existsb (same_host h) pre = false ->
  same_host h e = true ->
  entry_data e !! CONF_NAME = Some n1 ->
  ic !! CONF_HOST = Some (VStr h) ->
  ic !! CONF_NAME = Some n2 ->
  ic !! CONF_VOLUME_STEP = Some v2 ->
  let changed := n1 ≠ n2 \/ py_get (entry_data e) CONF_VOLUME_STEP ≠ v2 in
  let e' := update_entry (merged_data e n2 v2) (merged_options e v2) e in
  run_step (async_step_import depth ic) st
  = if bool_decide changed
    then (Ok (Abort "updated_entry"), with_entries (pre ++ e' :: post)%list st)
    else (Ok (Abort "already_setup"), st).
Proof.
  intros Hes Hwf Hpre He Hn1 Hh Hn2 Hv2 changed e'.
  unfold run_step, async_step_import. unfold_M. rewrite Hes.
  pose proof (import_entries_skip pre (e :: post) 0 ic h st Hwf Hh Hpre) as Hs.
  unfold_M. rewrite Hs. clear Hs.
  cbn [import_entries]. unfold_M.
  unfold same_host in He.
  destruct (entry_data e !! CONF_HOST) as [[|h'|]|] eqn:Hh'; try done.
  rewrite (subscript_Some _ _ _ Hh'), (subscript_Some _ _ _ Hh),
    host_is_same_str, He, (subscript_Some _ _ _ Hn1),
    (subscript_Some _ _ _ Hn2), (subscript_Some _ _ _ Hv2).
  subst changed e'. unfold merged_data, merged_options. rewrite Hn1.
  destruct (decide (n1 = n2)) as [Hne|Hne];
    destruct (decide (py_get (entry_data e) CONF_VOLUME_STEP = v2)) as [Hv|Hv];
    repeat (first [case_decide | case_bool_decide];
            try (exfalso;
                 first [ tauto | congruence
                       | match goal with
                         | H : ~ (_ ≠ ∅) |- _ => apply H, singleton_ne_empty
                         | H : ∅ ≠ ∅ |- _ => by apply H
                         end ]));
    rewrite ?py_update_singleton; cbn; try done;
    rewrite Hes, alter_app_r_alt, Nat.sub_diag by lia; done.
Qed.

(** The spec's reading of the volume step of an entry: it lives in the
    options record, and is 1 when the record holds none. *)
Definition spec_volume_step (e : ConfigEntry) : value :=
  py_get_default (entry_options e) CONF_VOLUME_STEP DEFAULT_VOLUME_STEP.

(** C3 (as amended): an import whose host is that of an existing entry,
    ports ignored, meets the first such entry [e]. The name and the volume
    step of the candidate are compared with what the data of [e] holds, a
    volume step that the data does not hold counting as different; the
    options of [e] are not looked at. When one of them differs, [e] is
    updated with the changed fields (the volume step in its data and in its
    options) and the flow aborts with [updated_entry]; when neither differs,
    the flow aborts with [already_setup] and nothing changes; the registry
    has no new entry either way. *)
Theorem import_step_merges (depth : nat) (st : St) (ic : dict)
    (pre post : list ConfigEntry) (e : ConfigEntry) (h : string)
    (n1 n2 v2 : value) :
  entries st = (pre ++ e :: post)%list ->
  Forall wf_entry pre ->
  existsb (same_host h) pre = false ->
  same_host h e = true ->
  entry_data e !! CONF_NAME = Some n1 ->
  ic !! CONF_HOST = Some (VStr h) ->
  ic !! CONF_NAME = Some n2 ->
  ic !! CONF_VOLUME_STEP = Some v2 ->
  let changed := n1 ≠ n2 \/ py_get (entry_data e) CONF_VOLUME_STEP ≠ v2 in
  let e' := update_entry (merged_data e n2 v2) (merged_options e v2) e in
  (changed ->
   run_step (async_step_import depth ic) st
   = (Ok (Abort "updated_entry"), with_entries (pre ++ e' :: post)%list st)) /\
  (~ changed ->
   run_step (async_step_import depth ic) st = (Ok (Abort "already_setup"), st)) /\
  (forall r st',
     run_step (async_step_import depth ic) st = (r, st') ->
     length (entries st') = length (entries st)).
Proof.
  intros Hes Hwf Hpre He Hn1 Hh Hn2 Hv2 changed e'.
  pose proof (import_step_run depth st ic pre post e h n1 n2 v2
                Hes Hwf Hpre He Hn1 Hh Hn2 Hv2) as Hrun.
  cbv zeta in Hrun. fold changed e' in Hrun.
  split; [|split].
  - intros Hc. by rewrite Hrun, bool_decide_eq_true_2.
  - intros Hc. by rewrite Hrun, bool_decide_eq_false_2.
  - intros r st'. rewrite Hrun. case_bool_decide; intros [= _ <-]; [|done].
    cbn. rewrite Hes, !length_app. done.
Qed.

(** ** Step [zeroconf] *)

Lemma split_colon_0_app (h p : string) :
  split_colon_0 (h ++ ":" ++ p) = split_colon_0 h.
Proof.
  induction h as [|c h IH]; [done|].
  change (String c h ++ ":" ++ p) with (String c (h ++ ":" ++ p)).
  cbn [split_colon_0].
  destruct (Ascii.eqb c ":"); [done|]. f_equal. apply IH.
Qed.

Lemma same_host_port (h p : string) (e : ConfigEntry) :
  same_host (h ++ ":" ++ p) e = same_host h e.
Proof. unfold same_host. by rewrite split_colon_0_app. Qed.

Lemma existsb_same_host_port (h p : string) (es : list ConfigEntry) :
  existsb (same_host (h ++ ":" ++ p)) es = existsb (same_host h) es.
Proof. induction es as [|e es IH]; [done|]. cbn. by rewrite same_host_port, IH. Qed.

(** The loop of step [zeroconf] aborts at the first entry with the host. *)
Lemma zeroconf_entries_spec (es : list ConfigEntry) (di : dict) (h : string)
    (st : St) :
  Forall wf_entry es ->
  di !! CONF_HOST = Some (VStr h) ->
  zeroconf_entries es di st
  = (Ok (if existsb (same_host h) es then Some (Abort "already_setup") else None),
     st).
Proof.
  intros Hwf Hh. induction Hwf as [|e es [[h' Hh'] _] _ IH]; [done|].
  cbn [zeroconf_entries existsb]. unfold_M.
  rewrite (subscript_Some _ _ _ Hh'), (subscript_Some _ _ _ Hh),
    host_is_same_str.
  unfold same_host at 1. rewrite Hh'.
  destruct (bool_decide (split_colon_0 h' = split_colon_0 h)); [done|].
  apply IH.
Qed.

(** The name a discovery proposes: the advertised name without its last
    [len(type) + 1] characters. *)
Definition stripped_name (nm ty : string) : string :=
  py_slice_to nm (- (Z.of_nat (String.length ty) + 1)).

(** The input a discovery assembles for step [user]. *)
Definition assembled (di : dict) (h : string) (port : value) (nm ty : string)
    (cls : value) : dict :=
  <[CONF_DEVICE_CLASS := cls]>
    (<[CONF_NAME := VStr (stripped_name nm ty)]>
       (<[CONF_HOST := VStr (h ++ ":" ++ py_str port)]> di)).

(** The state in which a discovery enters step [user]: the bare host claimed
    as unique identifier, the device asked, the flag set. *)
Definition discovered (h : string) (w : World) (st : St) : St :=
  with_flow
    (set_must_show_form true (set_unique_id (Some (split_colon_0 h)) (flow st)))
    (with_world w st).

Lemma zeroconf_reenters_user (depth : nat) (st : St) (di : dict) (h : string)
    (port : value) (nm ty : string) (cls : value) (w : World) :
  Forall wf_entry (entries st) ->
  di !! CONF_HOST = Some (VStr h) ->
  di !! CONF_PORT = Some port ->
  di !! CONF_TYPE = Some (VStr ty) ->
  di !! CONF_NAME = Some (VStr nm) ->
  Some (split_colon_0 h) ∉ unique_id <$> in_progress st ->
  ~ host_taken h (entries st) ->
  async_guess_device_type (VStr (h ++ ":" ++ py_str port)) (world st) = (cls, w) ->
  async_step_zeroconf depth (Some di) st
  = async_step_user depth (Some (assembled di h port nm ty cls))
      (discovered h w st).
Proof.
  intros Hwf Hh Hp Ht Hn Hprog Hht Hg.
  unfold async_step_zeroconf. unfold_M.
  rewrite (subscript_Some _ _ _ Hh). cbn [value_split_colon_0].
  rewrite bool_decide_eq_false_2 by done. cbn [andb].
  rewrite (subscript_Some _ _ _ Hp).
  change (py_str (VStr h)) with h.
  erewrite zeroconf_entries_spec; [|done|by rewrite lookup_insert_eq].
  cbn [entries with_flow]. rewrite existsb_same_host_port.
  rewrite host_taken_existsb in Hht. apply not_true_is_false in Hht.
  rewrite Hht.
  unfold subscript. rewrite !lookup_insert_ne by done. rewrite Ht, Hn.
  cbn [py_len value_slice_to]. rewrite lookup_insert_ne by done.
  rewrite lookup_insert_eq. cbn [world with_flow]. rewrite Hg. done.
Qed.

(** Step [user] on the input of a discovery shows its form and creates
    nothing. *)
Lemma user_step_confirms_discovery (depth : nat) (st : St) (ui : dict)
    (h : string) (n : value) :
  Forall wf_entry (entries st) ->
  ui !! CONF_HOST = Some (VStr h) ->
  ui !! CONF_NAME = Some n ->
  flag (_must_show_form (flow st)) = true ->
  source (context (flow st)) = SOURCE_ZEROCONF ->
  exists errors st',
    run_step (async_step_user depth (Some ui)) st
    = (Ok (Form "user" (_get_config_schema (Some ui)) errors None), st') /\
    entries st' = entries st.
Proof.
  intros Hwf Hh Hn Hflag Hsrc.
  unfold run_step, async_step_user. unfold_M. cbn.
  rewrite (user_conflicts_spec _ _ _ _ _ Hwf Hh Hn).
  cbn -[conflict_errors].
  case_decide as He; cbn -[conflict_errors].
  - rewrite Hflag, Hsrc. cbn. eauto.
  - eauto.
Qed.

(** C8 (as amended): a discovery whose bare host no other flow in progress
    has claimed: when an existing entry has the discovered host, ports
    ignored, the flow aborts with [already_setup]; otherwise the name loses
    the service-type suffix, the device client guesses the device class from
    the host, the flag [_must_show_form] is set and step [user] runs on the
    assembled input, which shows the form of step [user] and creates no
    entry on that round. *)
Theorem zeroconf_step_discovers (depth : nat) (st : St) (di : dict)
    (h : string) (port : value) :
  Forall wf_entry (entries st) ->
  source (context (flow st)) = SOURCE_ZEROCONF ->
  di !! CONF_HOST = Some (VStr h) ->
  di !! CONF_PORT = Some port ->
  Some (split_colon_0 h) ∉ unique_id <$> in_progress st ->
  (host_taken h (entries st) ->
   run_step (async_step_zeroconf depth (Some di)) st
   = (Ok (Abort "already_setup"),
      with_flow (set_unique_id (Some (split_colon_0 h)) (flow st)) st)) /\
  (~ host_taken h (entries st) ->
   forall (nm ty : string) (cls : value) (w : World),
     di !! CONF_TYPE = Some (VStr ty) ->
     di !! CONF_NAME = Some (VStr nm) ->
     async_guess_device_type (VStr (h ++ ":" ++ py_str port)) (world st)
       = (cls, w) ->
     async_step_zeroconf depth (Some di) st
     = async_step_user depth (Some (assembled di h port nm ty cls))
         (discovered h w st) /\
     _must_show_form (flow (discovered h w st)) = Some true /\
     exists errors st',
       run_step (async_step_zeroconf depth (Some di)) st
       = (Ok (Form "user"
                (_get_config_schema (Some (assembled di h port nm ty cls)))
                errors None), st') /\
       entries st' = entries st).
Proof.
  intros Hwf Hsrc Hh Hp Hprog. split.
  - intros Hht. unfold run_step, async_step_zeroconf. unfold_M.
    rewrite (subscript_Some _ _ _ Hh). cbn [value_split_colon_0].
    rewrite bool_decide_eq_false_2 by done. cbn [andb].
    rewrite (subscript_Some _ _ _ Hp).
    change (py_str (VStr h)) with h.
    erewrite zeroconf_entries_spec; [|done|by rewrite lookup_insert_eq].
    cbn [entries with_flow]. rewrite existsb_same_host_port.
    rewrite host_taken_existsb in Hht. by rewrite Hht.
  - intros Hht nm ty cls w Ht Hn Hg.
    pose proof (zeroconf_reenters_user depth st di h port nm ty cls w
                  Hwf Hh Hp Ht Hn Hprog Hht Hg) as Heq.
    split; [exact Heq|]. split; [done|].
    unfold run_step. rewrite Heq.
    destruct (user_step_confirms_discovery depth (discovered h w st)
                (assembled di h port nm ty cls) (h ++ ":" ++ py_str port)
                (VStr (stripped_name nm ty)))
      as (errors & st' & Hrun & Hent); try done.
    + unfold assembled. rewrite !lookup_insert_ne by done.
      by rewrite lookup_insert_eq.
    + unfold assembled. rewrite lookup_insert_ne by done.
      by rewrite lookup_insert_eq.
    + exists errors, st'. split; [exact Hrun|exact Hent].
Qed.

Lemma stripped_name_substring (nm ty : string) :
  stripped_name nm ty
  = substring 0 (String.length nm - (String.length ty + 1)) nm.
Proof. apply py_slice_to_neg. Qed.

(** When the advertised name does end with a dot and the service type, the
    stripped name is what stands before them. *)
Lemma substring_0_append (p s : string) :
  substring 0 (String.length p) (p ++ s) = p.
Proof.
  induction p as [|c p IH]; [by destruct s|].
  change (String c p ++ s) with (String c (p ++ s)). cbn. by rewrite IH.
Qed.

Lemma string_length_append (s1 s2 : string) :
  String.length (s1 ++ s2) = String.length s1 + String.length s2.
Proof.
  induction s1 as [|c s1 IH]; [done|].
  change (String c s1 ++ s2) with (String c (s1 ++ s2)). cbn. by rewrite IH.
Qed.

Lemma stripped_name_suffix (p ty : string) :
  stripped_name (p ++ "." ++ ty) ty = p.
Proof.
  rewrite stripped_name_substring.
  replace (String.length (p ++ "." ++ ty) - (String.length ty + 1))
    with (String.length p).
  - apply substring_0_append.
  - rewrite !string_length_append. cbn. lia.
Qed.

(** C10: the discovery step strips [len(type) + 1] trailing characters from
    the advertised name whatever the name is: the default name of the form
    is the prefix of the advertised name that is [len(type) + 1] characters
    shorter (empty when the name is no longer than that), with no test that
    the name ends with a dot and the service type. *)
Theorem zeroconf_strips_name_unchecked (depth : nat) (st : St) (di : dict)
    (h : string) (port : value) (nm ty : string) (cls : value) (w : World) :
  Forall wf_entry (entries st) ->
  source (context (flow st)) = SOURCE_ZEROCONF ->
  di !! CONF_HOST = Some (VStr h) ->
  di !! CONF_PORT = Some port ->
  di !! CONF_TYPE = Some (VStr ty) ->
  di !! CONF_NAME = Some (VStr nm) ->
  Some (split_colon_0 h) ∉ unique_id <$> in_progress st ->
  ~ host_taken h (entries st) ->
  async_guess_device_type (VStr (h ++ ":" ++ py_str port)) (world st) = (cls, w) ->
  let name := substring 0 (String.length nm - (String.length ty + 1)) nm in
  String.prefix name nm = true /\
  String.length name = String.length nm - (String.length ty + 1) /\
  exists sch errors st',
    run_step (async_step_zeroconf depth (Some di)) st
    = (Ok (Form "user" sch errors None), st') /\
    schema_fields sch !! 0%nat = Some (Required CONF_NAME (VStr name), v_str).
Proof.
  intros Hwf Hsrc Hh Hp Ht Hn Hprog Hht Hg name.
  split; [apply substring_0_prefix|]. split.
  { unfold name. rewrite substring_0_length. lia. }
  unfold run_step.
  rewrite (zeroconf_reenters_user depth st di h port nm ty cls w
             Hwf Hh Hp Ht Hn Hprog Hht Hg).
  destruct (user_step_confirms_discovery depth (discovered h w st)
              (assembled di h port nm ty cls) (h ++ ":" ++ py_str port)
              (VStr (stripped_name nm ty)))
    as (errors & st' & Hrun & Hent); try done.
  - unfold assembled. rewrite !lookup_insert_ne by done.
    by rewrite lookup_insert_eq.
  - unfold assembled. rewrite lookup_insert_ne by done.
    by rewrite lookup_insert_eq.
  - eexists _, errors, st'. split; [exact Hrun|].
    cbn. unfold py_get_default, assembled.
    rewrite lookup_insert_ne by done. rewrite lookup_insert_eq. cbn.
    by rewrite stripped_name_substring.
Qed.

(** ** Pairing *)

(** The confirmation step a completed pairing leads to. *)
Definition complete_step_id (src : Source) : string :=
  if decide (src = SOURCE_IMPORT) then "pairing_complete_import"
  else "pairing_complete".

(** The phases of step [pair_tv]. Pairing has started when the flow holds a
    channel type or a pairing token. *)
Definition started (fl : Flow) : bool :=
  truthy (_ch_type fl) || truthy (_pairing_token fl).

Lemma phase_test (fl : Flow) :
  negb (truthy (_ch_type fl)) && negb (truthy (_pairing_token fl))
  = negb (started fl).
Proof. unfold started. by destruct (truthy _), (truthy _). Qed.

Lemma pair_tv_start (depth : nat) (ui : option dict) (st : St) (d : dict)
    (host name cls : value) (r : option PairData) (w : World) :
  started (flow st) = false ->
  _data (flow st) = Some d ->
  d !! CONF_HOST = Some host ->
  d !! CONF_NAME = Some name ->
  d !! CONF_DEVICE_CLASS = Some cls ->
  start_pair host name cls (world st) = (r, w) ->
  async_step_pair_tv (S depth) ui st
  = match r with
    | Some pd =>
        async_step_pair_tv depth None
          (with_flow (set_pairing_token (token pd) (set_ch_type (ch_type pd) (flow st)))
             (with_world w st))
    | None =>
        (Ok (Form "user" (_get_config_schema (Some d))
               {["base" := "cant_connect"]} None), with_world w st)
    end.
Proof.
  intros Hst Hd Hh Hn Hc Hsp.
  cbn [async_step_pair_tv]. unfold_M. cbn.
  rewrite phase_test, Hst. cbn. rewrite Hd.
  rewrite (subscript_Some _ _ _ Hh), (subscript_Some _ _ _ Hn),
    (subscript_Some _ _ _ Hc), Hsp.
  by destruct r.
Qed.

Lemma pair_tv_no_pin (depth : nat) (ui : option dict) (st : St) :
  started (flow st) = true ->
  bool_decide (default ∅ ui ≠ ∅) && truthy (py_get (default ∅ ui) CONF_PIN)
    = false ->
  async_step_pair_tv (S depth) ui st
  = (Ok (Form "pair_tv" (_get_pairing_schema ui) ∅ None), st).
Proof.
  intros Hst Hpin. cbn [async_step_pair_tv]. unfold_M. cbn.
  rewrite phase_test, Hst. cbn. by rewrite Hpin.
Qed.

Lemma pair_tv_pin (depth : nat) (ui : dict) (st : St) (d : dict)
    (host name cls pin : value) (r : option value) (w : World) :
  started (flow st) = true ->
  ui !! CONF_PIN = Some pin ->
  truthy pin = true ->
  _data (flow st) = Some d ->
  d !! CONF_HOST = Some host ->
  d !! CONF_NAME = Some name ->
  d !! CONF_DEVICE_CLASS = Some cls ->
  pair host name cls (_ch_type (flow st)) (_pairing_token (flow st)) pin
    (world st) = (r, w) ->
  async_step_pair_tv (S depth) (Some ui) st
  = match r with
    | Some auth =>
        _pairing_complete (complete_step_id (source (context (flow st))))
          (with_flow
             (set_must_show_form true
                (set_data (Some (<[CONF_ACCESS_TOKEN := auth]> d)) (flow st)))
             (with_world w st))
    | None =>
        (Ok (Form "pair_tv" (_get_pairing_schema (Some ui))
               {[CONF_PIN := "complete_pairing_failed"]} None),
         with_world w st)
    end.
Proof.
  intros Hst Hpin Htr Hd Hh Hn Hc Hp.
  cbn [async_step_pair_tv]. unfold_M. cbn.
  rewrite phase_test, Hst. cbn.
  unfold py_get. rewrite Hpin. cbn. rewrite Htr.
  rewrite bool_decide_eq_true_2.
  2: { intros He. rewrite He in Hpin. by rewrite lookup_empty in Hpin. }
  cbn. rewrite Hd.
  rewrite (subscript_Some _ _ _ Hh), (subscript_Some _ _ _ Hn),
    (subscript_Some _ _ _ Hc), Hp.
  destruct r as [auth|]; [|done]. cbn.
  unfold complete_step_id. by case_decide.
Qed.

(** The confirmation step: the form once, then finalization. *)
Lemma pairing_complete_shows (sid : string) (st : St) (d : dict) (tok : value) :
  flag (_must_show_form (flow st)) = true ->
  _data (flow st) = Some d ->
  d !! CONF_ACCESS_TOKEN = Some tok ->
  _pairing_complete sid st
  = (Ok (Form sid empty_schema ∅ (Some {["access_token" := tok]})),
     with_flow (set_must_show_form false (flow st)) st).
Proof.
  intros Hf Hd Ht. unfold _pairing_complete. unfold_M. cbn.
  rewrite Hf. cbn. rewrite Hd, (subscript_Some _ _ _ Ht). done.
Qed.

Lemma pairing_complete_finalizes (sid : string) (st : St) (d : dict) :
  flag (_must_show_form (flow st)) = false ->
  _data (flow st) = Some d ->
  _pairing_complete sid st = _create_entry_if_unique d st.
Proof.
  intros Hf Hd. unfold _pairing_complete. unfold_M. cbn.
  rewrite Hf. cbn. by rewrite Hd.
Qed.

Lemma async_step_complete (src : Source) (depth : nat) (ui : option dict) :
  async_step (complete_step_id src) depth ui
  = _pairing_complete (complete_step_id src).
Proof.
  unfold async_step, complete_step_id.
  destruct (decide (src = SOURCE_IMPORT)); reflexivity.
Qed.


(** The flow once [start_pair] has answered [pd]. *)
Definition pairing_started (pd : PairData) (fl : Flow) : Flow :=
  set_pairing_token (token pd) (set_ch_type (ch_type pd) fl).

(** The flow once [pair] has answered [auth] and the confirmation form is
    shown: the token is stored in the pending config, the flag consumed. *)
Definition pairing_completed (d : dict) (auth : value) (fl : Flow) : Flow :=
  set_must_show_form false
    (set_must_show_form true
       (set_data (Some (<[CONF_ACCESS_TOKEN := auth]> d)) fl)).

(** C4 (as amended): a flow with pending config [d] in which pairing has not
    started. When [start_pair] succeeds with a handshake state, the PIN form
    is shown; when [pair] then succeeds with the submitted PIN, the returned
    access token is stored in the pending config and the confirmation form
    ([pairing_complete], or [pairing_complete_import] for an import) is
    shown, once; the next round of that step finalizes: when no entry and no
    flow in progress claims the unique identifier of the device, it creates
    exactly one entry, whose data holds that access token; otherwise it
    aborts with [already_configured] and the registry is as it was. *)
Theorem pairing_creates_entry (depth : nat) (st : St) (d : dict)
    (host name cls : value) (pd : PairData) (w0 : World) :
  _data (flow st) = Some d ->
  d !! CONF_HOST = Some host ->
  d !! CONF_NAME = Some name ->
  d !! CONF_DEVICE_CLASS = Some cls ->
  truthy (_ch_type (flow st)) = false ->
  truthy (_pairing_token (flow st)) = false ->
  start_pair host name cls (world st) = (Some pd, w0) ->
  truthy (ch_type pd) || truthy (token pd) = true ->
  let sid := complete_step_id (source (context (flow st))) in
  run_step (async_step_pair_tv (S (S depth)) None) st
  = (Ok (Form "pair_tv" (_get_pairing_schema None) ∅ None),
     with_flow (pairing_started pd (flow st)) (with_world w0 st)) /\
  forall (st1 : St) (ui : dict) (pin auth : value) (w1 : World),
    flow st1 = pairing_started pd (flow st) ->
    ui !! CONF_PIN = Some pin ->
    truthy pin = true ->
    pair host name cls (ch_type pd) (token pd) pin (world st1) = (Some auth, w1) ->
    let d' := <[CONF_ACCESS_TOKEN := auth]> d in
    run_step (async_step "pair_tv" (S depth) (Some ui)) st1
    = (Ok (Form sid empty_schema ∅ (Some {["access_token" := auth]})),
       with_flow (pairing_completed d auth (flow st1)) (with_world w1 st1)) /\
    _data (pairing_completed d auth (flow st1)) = Some d' /\
    d' !! CONF_ACCESS_TOKEN = Some auth /\
    forall (st2 : St) (ui2 : option dict) (uid : string) (w2 : World),
      flow st2 = pairing_completed d auth (flow st1) ->
      get_unique_id host auth cls (world st2) = (uid, w2) ->
      (~ claimed uid st2 ->
       exists st3,
         run_step (async_step sid depth ui2) st2
         = (Ok (CreateEntry name d'), st3) /\
         entries st3
         = (entries st2 ++
            [ {| entry_title := name; entry_data := d'; entry_options := ∅;
                 entry_unique_id := Some uid |} ])%list) /\
      (claimed uid st2 ->
       exists st3,
         run_step (async_step sid depth ui2) st2
         = (Ok (Abort "already_configured"), st3) /\
         entries st3 = entries st2).
Proof.
  intros Hd Hh Hn Hc Hch Hpt Hsp Hpd sid.
  assert (Hst : started (flow st) = false) by (unfold started; by rewrite Hch, Hpt).
  split.
  { unfold run_step.
    rewrite (pair_tv_start _ _ _ _ _ _ _ _ _ Hst Hd Hh Hn Hc Hsp).
    rewrite pair_tv_no_pin; done. }
  intros st1 ui pin auth w1 Hfl Hpin Htr Hpair d'.
  assert (Hd' : forall k, k ≠ CONF_ACCESS_TOKEN -> d' !! k = d !! k).
  { intros k Hk. unfold d'. by rewrite lookup_insert_ne. }
  split; [|split; [done|split; [by apply lookup_insert_eq|]]].
  { unfold run_step, async_step.
    rewrite decide_False by done. rewrite decide_True by done.
    rewrite (pair_tv_pin depth ui st1 d host name cls pin (Some auth) w1);
      try done; try (by rewrite Hfl).
    erewrite pairing_complete_shows;
      [|done|done|by apply lookup_insert_eq].
    unfold sid, pairing_completed. cbn. rewrite Hfl. done. }
  intros st2 ui2 uid w2 Hfl2 Hu.
  unfold claimed, sid. rewrite async_step_complete. unfold run_step.
  rewrite (pairing_complete_finalizes _ _ d') by (by rewrite Hfl2).
  unfold _create_entry_if_unique. unfold_M.
  assert (Hh' : d' !! CONF_HOST = Some host) by (by rewrite Hd').
  assert (Hc' : d' !! CONF_DEVICE_CLASS = Some cls) by (by rewrite Hd').
  assert (Hn' : d' !! CONF_NAME = Some name) by (by rewrite Hd').
  assert (Ht' : py_get d' CONF_ACCESS_TOKEN = auth).
  { unfold py_get, d'. by rewrite lookup_insert_eq. }
  clearbody d'.
  rewrite (subscript_Some _ _ _ Hh'), (subscript_Some _ _ _ Hc'), Ht', Hu,
    (subscript_Some _ _ _ Hn').
  cbn.
  destruct (bool_decide (Some uid ∈ unique_id <$> in_progress st2)) eqn:Hp; cbn.
  - apply bool_decide_eq_true_1 in Hp. split; [tauto|eauto].
  - apply bool_decide_eq_false_1 in Hp.
    destruct (bool_decide (Some uid ∈ entry_unique_id <$> entries st2)) eqn:He.
    + apply bool_decide_eq_true_1 in He. split; [tauto|eauto].
    + apply bool_decide_eq_false_1 in He. split; [eauto|tauto].
Qed.

(** ** The options flow *)

(** The spec's reading of the volume-step field: any integer is accepted and
    clamped into the range 1 to 10. *)
Definition clamp (lo hi z : Z) : Z := Z.max lo (Z.min hi z).
Definition spec_clamped_volume_step (py_int_of_str : string -> option Z)
    (v : value) : option value :=
  z ← py_int py_int_of_str v; Some (VInt (clamp 1 10 z)).

(** What the validator of the field does: an integer from 1 to 10 is kept
    as it is, anything else is refused. *)
Lemma volume_step_validator_spec (py_int_of_str : string -> option Z)
    (v v' : value) :
  validate py_int_of_str volume_step_validator v = Some v' <->
  exists z, py_int py_int_of_str v = Some z /\ (1 <= z <= 10)%Z /\ v' = VInt z.
Proof.
  unfold volume_step_validator. cbn.
  destruct (py_int py_int_of_str v) as [z|]; cbn.
  - destruct (1 <=? z)%Z eqn:H1; destruct (z <=? 10)%Z eqn:H2; cbn;
      try apply Z.leb_le in H1; try apply Z.leb_le in H2;
      try apply Z.leb_gt in H1; try apply Z.leb_gt in H2.
    + split; [intros [= <-]; eauto|]. by intros (z' & [= <-] & _ & ->).
    + split; [done|]. intros (z' & [= <-] & ? & _). lia.
    + split; [done|]. intros (z' & [= <-] & ? & _). lia.
    + split; [done|]. intros (z' & [= <-] & ? & _). lia.
  - split; [done|]. by intros (z & ? & _).
Qed.

(** C9 (as amended): the options flow on an existing entry shows, without
    input, the form [init] with the single field [volume_step], whose
    default is the volume step of the entry's options, or 1, and whose
    validator accepts an integer from 1 to 10 unchanged and refuses every
    other value; with input, the entry's options become the input, whole,
    and nothing else in the registry changes. The step takes no device and
    no world. *)
Theorem options_flow_init (py_int_of_str : string -> option Z)
    (es : list ConfigEntry) (i : nat) (e : ConfigEntry) :
  es !! i = Some e ->
  run_options_step i None es
  = Some (Form "init" (options_schema e) ∅ None, es) /\
  schema_fields (options_schema e)
  = [ (Optional CONF_VOLUME_STEP
         (default (VInt 1) (entry_options e !! CONF_VOLUME_STEP)),
       volume_step_validator) ] /\
  (forall v v',
      validate py_int_of_str volume_step_validator v = Some v' <->
      exists z, py_int py_int_of_str v = Some z /\ (1 <= z <= 10)%Z /\
                v' = VInt z) /\
  (forall ui,
      exists es',
        run_options_step i (Some ui) es = Some (CreateEntry (VStr "") ui, es') /\
        es' !! i = Some (update_entry (entry_data e) ui e) /\
        entry_options (update_entry (entry_data e) ui e) = ui /\
        (forall j, j ≠ i -> es' !! j = es !! j)).
Proof.
  intros He. unfold run_options_step. rewrite He. cbn.
  split; [done|]. split; [done|].
  split; [apply volume_step_validator_spec|].
  intros ui. eexists. split; [reflexivity|]. split; [|split; [done|]].
  - rewrite list_lookup_alter_eq, He. done.
  - intros j Hj. by rewrite list_lookup_alter_ne.
Qed.

(** ** Uniqueness of hosts and names *)

(** No two entries of the registry share a host, ports ignored; no two
    share a name. *)
Definition hosts_unique (es : list ConfigEntry) : Prop :=
  forall i j e1 e2 h,
    i ≠ j -> es !! i = Some e1 -> es !! j = Some e2 ->
    entry_data e1 !! CONF_HOST = Some (VStr h) -> same_host h e2 = false.
Definition names_unique (es : list ConfigEntry) : Prop :=
  forall i j e1 e2 n,
    i ≠ j -> es !! i = Some e1 -> es !! j = Some e2 ->
    entry_data e1 !! CONF_NAME = Some n -> same_name n e2 = false.
Definition entries_unique (es : list ConfigEntry) : Prop :=
  hosts_unique es /\ names_unique es.

(** ** The flow as a state machine *)

(** The device's side of pairing: a started pairing carries a handshake
    state, a channel type or a token that is not empty. *)
Definition handshakes : Prop :=
  forall host name cls w pd w',
    start_pair host name cls w = (Some pd, w') ->
    truthy (ch_type pd) || truthy (token pd) = true.

(** What the flow holds while it waits at a step: no handshake state at
    step [user], one at step [pair_tv]. *)
Definition waits_at (step_id : string) (fl : Flow) : Prop :=
  (step_id = "user" -> started fl = false) /\
  (step_id = "pair_tv" -> started fl = true).

(** The outcome [r] of a step the flow ran from [cur] leaves the flow
    waiting properly: at the step of the form shown, or still at [cur] when
    the step raised. *)
Definition settles (cur : string) (r : result FlowResult) (fl : Flow) : Prop :=
  match r with
  | Ok (Form step_id _ _ _) => waits_at step_id fl
  | Raise _ => waits_at cur fl
  | Ok _ => True
  end.

Lemma create_entry_if_unique_started (d : dict) (st st' : St) r :
  _create_entry_if_unique d st = (r, st') ->
  started (flow st') = started (flow st) /\
  (forall s sch errs ph, r ≠ Ok (Form s sch errs ph)).
Proof.
  unfold _create_entry_if_unique. unfold_M. cbn.
  repeat case_match; intros; simplify_eq; done.
Qed.

Lemma pairing_complete_started (sid : string) (st st' : St) r :
  _pairing_complete sid st = (r, st') ->
  started (flow st') = started (flow st) /\
  (forall s sch errs ph, r = Ok (Form s sch errs ph) -> s = sid).
Proof.
  unfold _pairing_complete. unfold_M. cbn.
  destruct (negb (flag (_must_show_form (flow st)))).
  - destruct (_data (flow st)); [|by intros [= <- <-]].
    intros H. apply create_entry_if_unique_started in H as [H1 H2].
    split; [done|]. intros s sch errs ph ->. by destruct (H2 s sch errs ph).
  - repeat case_match; intros; simplify_eq;
      (split; [done | intros; by simplify_eq]).
Qed.

Lemma settles_complete (cur : string) (src : Source) (st st' : St) r :
  waits_at cur (flow st) ->
  cur ≠ "user" ->
  _pairing_complete (complete_step_id src) st = (r, st') ->
  settles cur r (flow st').
Proof.
  intros [Hu Hp] Hcur H. apply pairing_complete_started in H as [Hst Hsid].
  destruct r as [[s sch errs ph| |]|e]; cbn; try done.
  - rewrite (Hsid _ _ _ _ eq_refl). unfold complete_step_id.
    split; intros Hs; by case_decide.
  - split; [done|]. intros Hc. rewrite Hst. auto.
Qed.

(** Step [pair_tv] from a flow with a handshake state stays there or goes
    on to the confirmation. *)
Lemma pair_tv_settles_started (depth : nat) (ui : option dict) (st st' : St) r :
  started (flow st) = true ->
  async_step_pair_tv (S depth) ui st = (r, st') ->
  settles "pair_tv" r (flow st').
Proof.
  intros Hst. cbn [async_step_pair_tv]. unfold_M. cbn.
  rewrite phase_test, Hst. cbn.
  assert (Hw : waits_at "pair_tv" (flow st)) by (split; done).
  destruct (_ && _); [|by intros [= <- <-]].
  destruct (_data (flow st)) as [d|]; [|by intros [= <- <-]].
  destruct (subscript d CONF_HOST); [|by intros [= <- <-]].
  destruct (subscript d CONF_NAME); [|by intros [= <- <-]].
  destruct (subscript d CONF_DEVICE_CLASS); [|by intros [= <- <-]].
  destruct (pair _ _ _ _ _ _ _) as [[tok|] w]; [|by intros [= <- <-]].
  cbn. intros H.
  assert (Hr : _pairing_complete
                 (complete_step_id (source (context (flow st))))
                 (with_flow
                    (set_must_show_form true
                       (set_data (Some (<[CONF_ACCESS_TOKEN:=tok]> d)) (flow st)))
                    (with_world w st)) = (r, st')).
  { rewrite <- H. unfold complete_step_id. by case_decide. }
  eapply settles_complete in Hr; [exact Hr| |done].
  split; done.
Qed.

(** Step [pair_tv] from a flow without handshake state, with room for the
    call it makes to itself: the form of step [user] and no handshake state,
    or the PIN form and one. *)
Lemma pair_tv_settles_fresh (depth : nat) (ui : option dict) (st st' : St) r :
  handshakes ->
  started (flow st) = false ->
  async_step_pair_tv (S (S depth)) ui st = (r, st') ->
  settles "user" r (flow st').
Proof.
  intros Hdev Hst.
  assert (Hw : waits_at "user" (flow st)) by (split; done).
  destruct (_data (flow st)) as [d|] eqn:Hd.
  2: { cbn [async_step_pair_tv]. unfold_M. cbn.
       rewrite phase_test, Hst. cbn. rewrite Hd. by intros [= <- <-]. }
  destruct (d !! CONF_HOST) as [host|] eqn:Hh.
  2: { cbn [async_step_pair_tv]. unfold_M. cbn.
       rewrite phase_test, Hst. cbn. rewrite Hd. unfold subscript.
       rewrite Hh. by intros [= <- <-]. }
  destruct (d !! CONF_NAME) as [name|] eqn:Hn.
  2: { cbn [async_step_pair_tv]. unfold_M. cbn.
       rewrite phase_test, Hst. cbn. rewrite Hd. unfold subscript.
       rewrite Hh, Hn. by intros [= <- <-]. }
  destruct (d !! CONF_DEVICE_CLASS) as [cls|] eqn:Hc.
  2: { cbn [async_step_pair_tv]. unfold_M. cbn.
       rewrite phase_test, Hst. cbn. rewrite Hd. unfold subscript.
       rewrite Hh, Hn, Hc. by intros [= <- <-]. }
  destruct (start_pair host name cls (world st)) as [[pd|] w] eqn:Hsp.
  - rewrite (pair_tv_start _ _ _ _ _ _ _ _ _ Hst Hd Hh Hn Hc Hsp).
    rewrite pair_tv_no_pin.
    + intros [= <- <-]. cbn. unfold waits_at, started. cbn.
      split; [done|]. intros _. apply (Hdev _ _ _ _ _ _ Hsp).
    + apply (Hdev _ _ _ _ _ _ Hsp).
    + done.
  - rewrite (pair_tv_start _ _ _ _ _ _ _ _ _ Hst Hd Hh Hn Hc Hsp).
    by intros [= <- <-].
Qed.

(** Step [user] from a flow without handshake state. *)
Lemma user_step_settles (depth : nat) (ui : option dict) (st st' : St) r :
  handshakes ->
  started (flow st) = false ->
  async_step_user (S (S depth)) ui st = (r, st') ->
  settles "user" r (flow st').
Proof.
  intros Hdev Hst.
  assert (Hw : forall (r0 : result FlowResult) (st0 : St),
             started (flow st0) = false -> 
             match r0 with Ok (Form s _ _ _) => s = "user" | Ok _ => True
                      | Raise _ => True end ->
             settles "user" r0 (flow st0)).
  { intros [[s sch errs ph| |]|e] st0 H0 Hs; cbn; try done;
      try subst s; split; done. }
  unfold async_step_user. unfold_M. cbn -[async_step_pair_tv].
  destruct ui as [ui|]; [|intros [= <- <-]; by apply Hw].
  destruct (user_conflicts (entries st) ui ∅) as [errors|e];
    [|intros [= <- <-]; by apply Hw].
  case_decide; [|intros [= <- <-]; by apply Hw]. cbn -[async_step_pair_tv].
  destruct (_ && _); [intros [= <- <-]; by apply Hw|].
  destruct (subscript ui CONF_DEVICE_CLASS) as [cls|];
    [|intros [= <- <-]; by apply Hw].
  destruct (_ || _).
  - destruct (subscript ui CONF_HOST); [|intros [= <- <-]; by apply Hw].
    destruct (validate_ha_config _ _ _ _) as [valid w].
    case_decide; [|intros [= <- <-]; by apply Hw].
    intros Hr. apply create_entry_if_unique_started in Hr as [Hs Hf].
    apply Hw; [by rewrite Hs|].
    destruct r as [[s sch errs ph| |]|]; try done.
    by destruct (Hf s sch errs ph).
  - destruct (_ && _); [intros [= <- <-]; by apply Hw|].
    apply pair_tv_settles_fresh; done.
Qed.

Lemma import_entries_flow (i : nat) (es : list ConfigEntry) (ic : dict)
    (st st' : St) r :
  import_entries i es ic st = (r, st') ->
  flow st' = flow st /\
  (forall r0, r = Ok (Some r0) -> exists reason, r0 = Abort reason).
Proof.
  revert i. induction es as [|e es IH]; intros i; [by intros [= <- <-]|].
  cbn [import_entries]. unfold_M.
  destruct (subscript (entry_data e) CONF_HOST); [|by intros [= <- <-]].
  destruct (subscript ic CONF_HOST); [|by intros [= <- <-]].
  destruct (_host_is_same _ _) as [[]|]; [|apply IH|by intros [= <- <-]].
  repeat case_match; intros; simplify_eq;
    (split; [done | intros; simplify_eq; eauto]).
Qed.

Lemma zeroconf_entries_flow (es : list ConfigEntry) (di : dict) (st st' : St) r :
  zeroconf_entries es di st = (r, st') ->
  st' = st /\
  (forall r0, r = Ok (Some r0) -> exists reason, r0 = Abort reason).
Proof.
  induction es as [|e es IH]; [by intros [= <- <-]|].
  cbn [zeroconf_entries]. unfold_M.
  destruct (subscript (entry_data e) CONF_HOST); [|by intros [= <- <-]].
  destruct (subscript di CONF_HOST); [|by intros [= <- <-]].
  destruct (_host_is_same _ _) as [[]|]; [|apply IH|by intros [= <- <-]].
  intros [= <- <-]. split; [done|]. intros r0 [= <-]. eauto.
Qed.

Lemma import_step_settles (depth : nat) (ic : dict) (st st' : St) r :
  handshakes ->
  started (flow st) = false ->
  async_step_import (S (S depth)) ic st = (r, st') ->
  settles "user" r (flow st').
Proof.
  intros Hdev Hst. unfold async_step_import. unfold_M.
  destruct (import_entries 0 (entries st) ic st) as [[[r0|]|e] st0] eqn:Hi;
    apply import_entries_flow in Hi as [Hi Hr0].
  - intros [= <- <-]. by destruct (Hr0 _ eq_refl) as [reason ->].
  - apply user_step_settles; [done|]. cbn. by rewrite Hi.
  - intros [= <- <-]. rewrite Hi. split; done.
Qed.

Lemma zeroconf_step_settles (depth : nat) (di : option dict) (st st' : St) r :
  handshakes ->
  started (flow st) = false ->
  async_step_zeroconf (S (S depth)) di st = (r, st') ->
  settles "user" r (flow st').
Proof.
  intros Hdev Hst. unfold async_step_zeroconf.
  assert (Hw : forall e (st0 : St), started (flow st0) = false ->
                               settles "user" (Raise e) (flow st0))
    by (intros; split; done).
  destruct di as [di|]; [|intros [= <- <-]; by apply Hw].
  unfold_M.
  destruct (subscript di CONF_HOST) as [host|]; [|intros [= <- <-]; by apply Hw].
  destruct (value_split_colon_0 host); [|intros [= <- <-]; by apply Hw].
  destruct (_ && _); [intros [= <- <-]; by apply Hw|].
  destruct (subscript di CONF_PORT); [|intros [= <- <-]; by apply Hw].
  destruct (zeroconf_entries _ _ _) as [[[r0|]|e] st0] eqn:Hz;
    apply zeroconf_entries_flow in Hz as [-> Hr0].
  - intros [= <- <-]. by destruct (Hr0 _ eq_refl) as [reason ->].
  - destruct (subscript _ CONF_TYPE); [|intros [= <- <-]; by apply Hw].
    destruct (py_len _); [|intros [= <- <-]; by apply Hw].
    destruct (subscript _ CONF_NAME); [|intros [= <- <-]; by apply Hw].
    destruct (value_slice_to _ _); [|intros [= <- <-]; by apply Hw].
    destruct (subscript _ CONF_HOST); [|intros [= <- <-]; by apply Hw].
    destruct (async_guess_device_type _ _) as [cls w].
    apply user_step_settles; done.
  - intros [= <- <-]. by apply Hw.
Qed.

(** Every step leaves the flow waiting properly. *)
Lemma step_settles (cur : string) (depth : nat) (ui : option dict)
    (st st' : St) r :
  handshakes ->
  waits_at cur (flow st) ->
  async_step cur (S (S depth)) ui st = (r, st') ->
  settles cur r (flow st').
Proof.
  intros Hdev Hw. unfold async_step.
  destruct (decide (cur = "user")) as [->|Hu].
  { apply user_step_settles; [done|]. by apply Hw. }
  destruct (decide (cur = "pair_tv")) as [->|Hp].
  { apply pair_tv_settles_started. by apply Hw. }
  destruct (decide (cur = "pairing_complete")) as [->|Hc].
  { apply (settles_complete _ SOURCE_USER); done. }
  destruct (decide (cur = "pairing_complete_import")) as [->|Hci].
  { apply (settles_complete _ SOURCE_IMPORT); done. }
  by intros [= <- <-].
Qed.

(** What the manager makes of an outcome changes neither a form, nor an
    exception, nor the flow. *)
Lemma run_step_settles (cur : string) (m : M FlowResult) (st st' : St) r :
  (forall r0 st0, m st = (r0, st0) -> settles cur r0 (flow st0)) ->
  run_step m st = (r, st') ->
  settles cur r (flow st').
Proof.
  intros Hm. unfold run_step.
  destruct (m st) as [[[s sch errs ph|t d|reason]|e] st0] eqn:Hr;
    specialize (Hm _ _ eq_refl); try (by intros [= <- <-]).
  destruct e; by intros [= <- <-].
Qed.

(** The fresh flow the manager creates for a trigger. *)
Definition fresh (es : list ConfigEntry) (others : list Context) (w : World)
    (src : Source) : St :=
  {| entries := es; in_progress := others; world := w;
     flow := init_flow {| source := src; unique_id := None |} |}.

(** Modelled from the spec: a session starts at one of the three entry
    points and waits at the step whose form it shows; it resumes there with
    the next input; a step that raises leaves it where it was; between two
    steps the registry, the other flows and the world may change. The
    recursion limit leaves room for the call step [pair_tv] makes to
    itself. *)
Inductive session : string -> St -> Prop :=
| session_user es others w depth ui step_id sch errs ph st' :
    run_step (async_step_user (S (S depth)) ui) (fresh es others w SOURCE_USER)
      = (Ok (Form step_id sch errs ph), st') ->
    session step_id st'
| session_import es others w depth ic step_id sch errs ph st' :
    run_step (async_step_import (S (S depth)) ic)
      (fresh es others w SOURCE_IMPORT)
      = (Ok (Form step_id sch errs ph), st') ->
    session step_id st'
| session_zeroconf es others w depth di step_id sch errs ph st' :
    run_step (async_step_zeroconf (S (S depth)) di)
      (fresh es others w SOURCE_ZEROCONF)
      = (Ok (Form step_id sch errs ph), st') ->
    session step_id st'
| session_resume cur st depth ui step_id sch errs ph st' :
    session cur st ->
    run_step (async_step cur (S (S depth)) ui) st
      = (Ok (Form step_id sch errs ph), st') ->
    session step_id st'
| session_raise cur st depth ui e st' :
    session cur st ->
    run_step (async_step cur (S (S depth)) ui) st = (Raise e, st') ->
    session cur st'
| session_others cur st st' :
    session cur st ->
    flow st' = flow st ->
    session cur st'.

(** With a device that hands out handshake states, a session that waits at
    step [user] has not started pairing, and one that waits at step
    [pair_tv] has. *)
Theorem session_waits (cur : string) (st : St) :
  handshakes -> session cur st -> waits_at cur (flow st).
Proof.
  intros Hdev Hs.
  induction Hs as [es others w depth ui sid sch errs ph st' Hr
                  |es others w depth ic sid sch errs ph st' Hr
                  |es others w depth di sid sch errs ph st' Hr
                  |cur st depth ui sid sch errs ph st' Hs IH Hr
                  |cur st depth ui e st' Hs IH Hr
                  |cur st st' Hs IH Hfl].
  - apply (run_step_settles "user") in Hr; [exact Hr|].
    intros r0 st0. by apply user_step_settles.
  - apply (run_step_settles "user") in Hr; [exact Hr|].
    intros r0 st0. by apply import_step_settles.
  - apply (run_step_settles "user") in Hr; [exact Hr|].
    intros r0 st0. by apply zeroconf_step_settles.
  - apply (run_step_settles cur) in Hr; [exact Hr|].
    intros r0 st0. by apply step_settles.
  - apply (run_step_settles cur) in Hr; [exact Hr|].
    intros r0 st0. by apply step_settles.
  - by rewrite Hfl.
Qed.

(** ** What keeps hosts and names unique *)

Lemma lookup_snoc_Some (es : list ConfigEntry) (e x : ConfigEntry) (i : nat) :
  (es ++ [e])%list !! i = Some x ->
  es !! i = Some x \/ (i = length es /\ x = e).
Proof.
  intros H. apply lookup_app_Some in H as [H|[Hle H]]; [by left|right].
  destruct (i - length es) as [|k] eqn:Hk; [|done].
  cbn in H. simplify_eq. split; [lia|done].
Qed.

Lemma not_host_taken (h : string) (es : list ConfigEntry) (i : nat) e :
  ~ host_taken h es -> es !! i = Some e -> same_host h e = false.
Proof.
  intros Hnt He. apply not_true_is_false. intros Hs. apply Hnt.
  exists e. split; [|done]. apply list_elem_of_lookup. eauto.
Qed.

Lemma not_name_taken (n : value) (es : list ConfigEntry) (i : nat) e :
  ~ name_taken n es -> es !! i = Some e -> same_name n e = false.
Proof.
  intros Hnt He. apply not_true_is_false. intros Hs. apply Hnt.
  exists e. split; [|done]. apply list_elem_of_lookup. eauto.
Qed.

(** An entry whose host and name no entry has may join the registry. *)
Lemma entries_unique_snoc (es : list ConfigEntry) (e : ConfigEntry)
    (h : string) (n : value) :
  entries_unique es ->
  entry_data e !! CONF_HOST = Some (VStr h) ->
  entry_data e !! CONF_NAME = Some n ->
  ~ host_taken h es ->
  ~ name_taken n es ->
  entries_unique (es ++ [e]).
Proof.
  intros [Hhu Hnu] Hh Hn Hht Hnt. split.
  - intros i j e1 e2 h1 Hij H1 H2 Hh1.
    apply lookup_snoc_Some in H1 as [H1|[-> ->]];
      apply lookup_snoc_Some in H2 as [H2|[-> ->]]; try done.
    + by apply (Hhu i j e1 e2).
    + pose proof (not_host_taken _ _ _ _ Hht H1) as Hs.
      unfold same_host in *. rewrite Hh1 in Hs. rewrite Hh.
      apply bool_decide_eq_false_1 in Hs. apply bool_decide_eq_false_2.
      congruence.
    + rewrite Hh in Hh1. simplify_eq. by apply (not_host_taken _ _ _ _ Hht H2).
  - intros i j e1 e2 n1 Hij H1 H2 Hn1.
    apply lookup_snoc_Some in H1 as [H1|[-> ->]];
      apply lookup_snoc_Some in H2 as [H2|[-> ->]]; try done.
    + by apply (Hnu i j e1 e2).
    + pose proof (not_name_taken _ _ _ _ Hnt H1) as Hs.
      unfold same_name in *. rewrite Hn1 in Hs. rewrite Hn.
      apply bool_decide_eq_false_1 in Hs. apply bool_decide_eq_false_2.
      congruence.
    + rewrite Hn in Hn1. simplify_eq. by apply (not_name_taken _ _ _ _ Hnt H2).
Qed.

(** Step [pair_tv] creates no entry on the round that starts pairing. *)
Lemma pair_tv_None_no_create (depth : nat) (st st' : St) t d :
  async_step_pair_tv depth None st ≠ (Ok (CreateEntry t d), st').
Proof.
  revert st. induction depth as [|depth IH]; intros st; [done|].
  cbn [async_step_pair_tv]. unfold_M. cbn.
  destruct (negb (truthy (_ch_type (flow st)))
            && negb (truthy (_pairing_token (flow st)))); [|done].
  destruct (_data (flow st)) as [d0|]; [|done].
  destruct (subscript d0 CONF_HOST); [|done].
  destruct (subscript d0 CONF_NAME); [|done].
  destruct (subscript d0 CONF_DEVICE_CLASS); [|done].
  destruct (start_pair _ _ _ _) as [[pd|] w]; [apply IH|done].
Qed.

(** An entry that step [user] creates on the round of its conflict check
    keeps hosts and names unique. *)
Lemma user_step_keeps_unique (depth : nat) (st st' : St) (ui : dict)
    (h : string) (n t : value) (d : dict) :
  Forall wf_entry (entries st) ->
  entries_unique (entries st) ->
  ui !! CONF_HOST = Some (VStr h) ->
  ui !! CONF_NAME = Some n ->
  run_step (async_step_user depth (Some ui)) st = (Ok (CreateEntry t d), st') ->
  d = ui /\ entries_unique (entries st').
Proof.
  intros Hwf Hu Hh Hn. unfold run_step.
  destruct (async_step_user depth (Some ui) st)
    as [[[s sch errs ph|t0 d0|reason]|e] st0] eqn:Hr;
    try (intros; by simplify_eq); [|destruct e; intros; by simplify_eq].
  intros [= -> -> <-]. revert Hr.
  unfold async_step_user. unfold_M. cbn -[async_step_pair_tv conflict_errors].
  rewrite (user_conflicts_spec _ _ _ _ _ Hwf Hh Hn).
  cbn -[async_step_pair_tv conflict_errors].
  case_decide as He; [|done]. apply conflict_errors_empty in He as [Ha Hb].
  cbn -[async_step_pair_tv conflict_errors].
  destruct (_ && _); [done|].
  destruct (subscript ui CONF_DEVICE_CLASS) as [cls|]; [|done].
  destruct (_ || _).
  - rewrite (subscript_Some _ _ _ Hh).
    destruct (validate_ha_config _ _ _ _) as [valid w].
    case_decide; [|done]. intros Hr.
    pose proof (create_entry_if_unique_Ok _ _ _ _ Hr) as [[t' Ht] Hent].
    simplify_eq. split; [done|]. cbn. rewrite Hent. cbn.
    apply (entries_unique_snoc _ _ h n); try done.
    + rewrite host_taken_existsb. by rewrite Ha.
    + rewrite name_taken_existsb. by rewrite Hb.
  - destruct (_ && _); [done|]. intros Hr.
    by apply pair_tv_None_no_create in Hr.
Qed.

(** The merge of an import changes no host: hosts stay unique. *)
Lemma merged_data_host (e : ConfigEntry) (n2 v2 : value) :
  merged_data e n2 v2 !! CONF_HOST = entry_data e !! CONF_HOST.
Proof.
  unfold merged_data. repeat case_decide; by rewrite ?lookup_insert_ne.
Qed.

Lemma hosts_unique_update (pre post : list ConfigEntry) (e e' : ConfigEntry) :
  entry_data e' !! CONF_HOST = entry_data e !! CONF_HOST ->
  hosts_unique (pre ++ e :: post) ->
  hosts_unique (pre ++ e' :: post).
Proof.
  intros Hsame Hu i j e1 e2 h Hij H1 H2 Hh.
  assert (Hl : forall k x, (pre ++ e' :: post)%list !! k = Some x ->
             exists y, (pre ++ e :: post)%list !! k = Some y /\
                       entry_data y !! CONF_HOST = entry_data x !! CONF_HOST).
  { intros k x Hk. apply lookup_app_Some in Hk as [Hk|[Hle Hk]].
    - exists x. split; [|done]. apply lookup_app_Some. by left.
    - destruct (k - length pre) as [|m] eqn:Hm.
      + cbn in Hk. simplify_eq. exists e. split; [|done].
        apply lookup_app_Some. right. split; [done|]. by rewrite Hm.
      + exists x. split; [|done].
        apply lookup_app_Some. right. split; [done|]. by rewrite Hm. }
  destruct (Hl _ _ H1) as (y1 & Hy1 & E1). destruct (Hl _ _ H2) as (y2 & Hy2 & E2).
  rewrite <- E1 in Hh. pose proof (Hu i j y1 y2 h Hij Hy1 Hy2 Hh) as Hs.
  unfold same_host in *. by rewrite <- E2.
Qed.

(** The merge of an import keeps hosts unique. *)
Lemma import_merge_keeps_hosts (depth : nat) (st st' : St) (ic : dict)
    (pre post : list ConfigEntry) (e : ConfigEntry) (h : string)
    (n1 n2 v2 : value) r :
  entries st = (pre ++ e :: post)%list ->
  Forall wf_entry pre ->
  existsb (same_host h) pre = false ->
  same_host h e = true ->
  entry_data e !! CONF_NAME = Some n1 ->
  ic !! CONF_HOST = Some (VStr h) ->
  ic !! CONF_NAME = Some n2 ->
  ic !! CONF_VOLUME_STEP = Some v2 ->
  hosts_unique (entries st) ->
  run_step (async_step_import depth ic) st = (r, st') ->
  hosts_unique (entries st').
Proof.
  intros Hes Hwf Hpre He Hn1 Hh Hn2 Hv2 Hu.
  rewrite (import_step_run depth st ic pre post e h n1 n2 v2
             Hes Hwf Hpre He Hn1 Hh Hn2 Hv2).
  case_bool_decide; intros [= _ <-]; [|done]. cbn.
  rewrite Hes in Hu. eapply hosts_unique_update; [|exact Hu].
  apply merged_data_host.
Qed.

(** * Further properties of the code *)

(** ** [_host_is_same] *)

(** [":" in s]. *)
Fixpoint has_colon (s : string) : bool :=
  match s with
  | EmptyString => false
  | String c s' => Ascii.eqb c ":"%char || has_colon s'
  end.

Lemma split_colon_0_no_colon (s : string) :
  has_colon s = false -> split_colon_0 s = s.
Proof.
  induction s as [|c s IH]; [done|]. cbn [has_colon split_colon_0].
  destruct (Ascii.eqb c ":"); [done|]. cbn. intros H. by rewrite IH.
Qed.

Lemma split_colon_0_host_port (h p : string) :
  has_colon h = false -> split_colon_0 (h ++ ":" ++ p) = h.
Proof. intros H. by rewrite split_colon_0_app, split_colon_0_no_colon. Qed.

(** Two hosts written with or without a port are the same exactly when the
    parts before the port are equal. *)
Theorem host_is_same_ignores_port (h1 h2 p1 p2 : string) :
  has_colon h1 = false ->
  has_colon h2 = false ->
  _host_is_same (VStr (h1 ++ ":" ++ p1)) (VStr (h2 ++ ":" ++ p2))
    = Ok (bool_decide (h1 = h2)) /\
  _host_is_same (VStr h1) (VStr (h2 ++ ":" ++ p2)) = Ok (bool_decide (h1 = h2)) /\
  _host_is_same (VStr (h1 ++ ":" ++ p1)) (VStr h2) = Ok (bool_decide (h1 = h2)).
Proof.
  intros H1 H2. rewrite !host_is_same_str.
  rewrite !split_colon_0_host_port, !split_colon_0_no_colon by done. done.
Qed.

(** ** The device-class field of the configuration form *)

(** Whatever the input, the third field of the configuration schema is the
    device class. On ASCII text its validator does not look at the case: it
    accepts a string exactly when, the letters A to Z lowered, it reads [tv]
    or [speaker], and gives it back lowered. What is no string is refused. *)
Theorem device_class_field_lowers (py_int_of_str : string -> option Z)
    (input_dict : option dict) (s : string) :
  is_ascii s = true ->
  exists dflt val,
    schema_fields (_get_config_schema input_dict) !! 2%nat
    = Some (Required CONF_DEVICE_CLASS dflt, val) /\
    validate py_int_of_str val (VStr s)
    = (if bool_decide (ascii_str_lower s = "tv" \/ ascii_str_lower s = "speaker")
       then Some (VStr (ascii_str_lower s)) else None) /\
    validate py_int_of_str val VNone = None /\
    forall z, validate py_int_of_str val (VInt z) = None.
Proof.
  intros Hs. eexists _, _. split; [reflexivity|].
  split; [|split; [done|done]].
  cbn. rewrite (str_lower_ascii s Hs).
  case_bool_decide as Hin; case_bool_decide as Hor; try done; exfalso.
  - apply Hor.
    apply elem_of_cons in Hin as [Hin|Hin];
      [left; unfold DEVICE_CLASS_TV in Hin; congruence|].
    apply elem_of_cons in Hin as [Hin|Hin];
      [right; unfold DEVICE_CLASS_SPEAKER in Hin; congruence|].
    by apply not_elem_of_nil in Hin.
  - apply Hin. destruct Hor as [-> | ->].
    + apply list_elem_of_here.
    + apply list_elem_of_further, list_elem_of_here.
Qed.

(** ** The rounds of step [pair_tv] *)


(** A device whose [start_pair] succeeds with an empty handshake state,
    whatever the state of the world. *)
Definition empty_handshakes (host name cls : value) : Prop :=
  forall w, exists pd w',
    start_pair host name cls w = (Some pd, w') /\
    truthy (ch_type pd) = false /\ truthy (token pd) = false.

(** With such a device, step [pair_tv] takes the handshake for none, starts
    pairing again and again, and ends in [RecursionError], whatever the
    recursion limit: it shows no form. The registry is as it was. *)
Theorem pair_tv_empty_handshake_overflows (depth : nat) (ui : option dict)
    (st : St) (d : dict) (host name cls : value) :
  started (flow st) = false ->
  _data (flow st) = Some d ->
  d !! CONF_HOST = Some host ->
  d !! CONF_NAME = Some name ->
  d !! CONF_DEVICE_CLASS = Some cls ->
  empty_handshakes host name cls ->
  exists st',
    run_step (async_step_pair_tv depth ui) st = (Raise RecursionError, st') /\
    entries st' = entries st.
Proof.
  intros Hst Hd Hh Hn Hc Hdev. revert ui st Hst Hd.
  induction depth as [|depth IH]; intros ui st Hst Hd; [by eexists|].
  destruct (Hdev (world st)) as (pd & w & Hsp & Hch & Htok).
  unfold run_step in *.
  rewrite (pair_tv_start _ _ _ _ _ _ _ _ _ Hst Hd Hh Hn Hc Hsp).
  destruct (IH None
              (with_flow (set_pairing_token (token pd)
                            (set_ch_type (ch_type pd) (flow st)))
                 (with_world w st))) as (st' & Hr & He).
  - unfold started. cbn. by rewrite Hch, Htok.
  - done.
  - exists st'. split; [exact Hr | exact He].
Qed.

(** ** What the steps do to the registry *)

Lemma pairing_complete_flag_no_create (sid : string) (st st' : St) t d :
  flag (_must_show_form (flow st)) = true ->
  _pairing_complete sid st ≠ (Ok (CreateEntry t d), st').
Proof.
  intros Hf. unfold _pairing_complete. unfold_M. cbn. rewrite Hf. cbn.
  repeat case_match; intros; by simplify_eq.
Qed.

Lemma pair_tv_no_create (depth : nat) (ui : option dict) (st st' : St) t d :
  async_step_pair_tv depth ui st ≠ (Ok (CreateEntry t d), st').
Proof.
  revert ui st. induction depth as [|depth IH]; intros ui st; [done|].
  cbn [async_step_pair_tv]. unfold_M. cbn.
  destruct (negb (truthy (_ch_type (flow st)))
            && negb (truthy (_pairing_token (flow st)))).
  - destruct (_data (flow st)) as [d0|]; [|done].
    destruct (subscript d0 CONF_HOST); [|done].
    destruct (subscript d0 CONF_NAME); [|done].
    destruct (subscript d0 CONF_DEVICE_CLASS); [|done].
    destruct (start_pair _ _ _ _) as [[pd|] w]; [apply IH|done].
  - destruct (_ && _); [|done].
    destruct (_data (flow st)) as [d0|]; [|done].
    destruct (subscript d0 CONF_HOST); [|done].
    destruct (subscript d0 CONF_NAME); [|done].
    destruct (subscript d0 CONF_DEVICE_CLASS); [|done].
    destruct (pair _ _ _ _ _ _ _) as [[tok|] w]; [|done].
    cbn. case_decide; by apply pairing_complete_flag_no_create.
Qed.

Lemma user_step_entries (depth : nat) (ui : option dict) (st st' : St) r :
  async_step_user depth ui st = (r, st') -> entries st' = entries st.
Proof.
  unfold async_step_user. unfold_M. cbn -[async_step_pair_tv].
  destruct ui as [ui|]; [|by intros [= _ <-]].
  destruct (user_conflicts (entries st) ui ∅) as [errors|e];
    [|by intros [= _ <-]].
  case_decide; [|by intros [= _ <-]]. cbn -[async_step_pair_tv].
  destruct (_ && _); [by intros [= _ <-]|].
  destruct (subscript ui CONF_DEVICE_CLASS) as [cls|]; [|by intros [= _ <-]].
  destruct (_ || _).
  - destruct (subscript ui CONF_HOST); [|by intros [= _ <-]].
    destruct (validate_ha_config _ _ _ _) as [valid w].
    case_decide; [|by intros [= _ <-]].
    intros Hr. by apply create_entry_if_unique_entries in Hr.
  - destruct (_ && _); [by intros [= _ <-]|].
    intros Hr. by apply pair_tv_entries in Hr.
Qed.

(** The identifier of a created entry is one the flow has claimed and no
    entry has. *)
Definition claims_fresh (r : result FlowResult) (st : St) : Prop :=
  forall t d, r = Ok (CreateEntry t d) ->
    exists u, unique_id (context (flow st)) = Some u /\
              Some u ∉ entry_unique_id <$> entries st.

Lemma create_entry_if_unique_fresh (d : dict) (st st' : St) r :
  _create_entry_if_unique d st = (r, st') -> claims_fresh r st'.
Proof.
  unfold _create_entry_if_unique, claims_fresh. unfold_M. cbn.
  repeat case_match; intros; simplify_eq; cbn in *; simplify_eq.
  eexists. split; [done|].
  match goal with
  | H : bool_decide (_ ∈ entry_unique_id <$> _) = false |- _ =>
      apply bool_decide_eq_false_1 in H; exact H
  end.
Qed.

Lemma pairing_complete_fresh (sid : string) (st st' : St) r :
  _pairing_complete sid st = (r, st') -> claims_fresh r st'.
Proof.
  unfold _pairing_complete. unfold_M. cbn.
  destruct (negb (flag (_must_show_form (flow st)))).
  - destruct (_data (flow st)); [|by intros [= <- <-] t d0 ?].
    apply create_entry_if_unique_fresh.
  - repeat case_match; intros; simplify_eq; by intros t d0 ?.
Qed.

Lemma user_step_fresh (depth : nat) (ui : option dict) (st st' : St) r :
  async_step_user depth ui st = (r, st') -> claims_fresh r st'.
Proof.
  unfold async_step_user. unfold_M. cbn -[async_step_pair_tv].
  destruct ui as [ui|]; [|by intros [= <- <-] t d ?].
  destruct (user_conflicts (entries st) ui ∅) as [errors|e];
    [|by intros [= <- <-] t d ?].
  case_decide; [|by intros [= <- <-] t d ?]. cbn -[async_step_pair_tv].
  destruct (_ && _); [by intros [= <- <-] t d ?|].
  destruct (subscript ui CONF_DEVICE_CLASS) as [cls|];
    [|by intros [= <- <-] t d ?].
  destruct (_ || _).
  - destruct (subscript ui CONF_HOST); [|by intros [= <- <-] t d ?].
    destruct (validate_ha_config _ _ _ _) as [valid w].
    case_decide; [|by intros [= <- <-] t d ?].
    apply create_entry_if_unique_fresh.
  - destruct (_ && _); [by intros [= <- <-] t d ?|].
    intros Hr t d ->. by apply pair_tv_no_create in Hr.
Qed.

Lemma async_step_entries (cur : string) (depth : nat) (ui : option dict)
    (st st' : St) r :
  async_step cur depth ui st = (r, st') ->
  entries st' = entries st /\ claims_fresh r st'.
Proof.
  unfold async_step. repeat case_decide.
  - intros Hr. split; [by apply user_step_entries in Hr|].
    by apply user_step_fresh in Hr.
  - intros Hr. split; [by apply pair_tv_entries in Hr|].
    intros t d ->. by apply pair_tv_no_create in Hr.
  - intros Hr. split; [by apply pairing_complete_entries in Hr|].
    by apply pairing_complete_fresh in Hr.
  - intros Hr. split; [by apply pairing_complete_entries in Hr|].
    by apply pairing_complete_fresh in Hr.
  - intros [= <- <-]. split; [done|]. by intros t d ?.
Qed.

(** What the manager makes of a step that left the registry alone. *)
Lemma run_step_registry (m : M FlowResult) (st st' : St) r :
  (forall r0 st0, m st = (r0, st0) ->
     entries st0 = entries st /\ claims_fresh r0 st0) ->
  run_step m st = (r, st') ->
  (entries st' = entries st /\ forall t d, r ≠ Ok (CreateEntry t d)) \/
  (exists t d u,
     r = Ok (CreateEntry t d) /\
     (Some u ∉ entry_unique_id <$> entries st) /\
     entries st'
     = (entries st ++
        [ {| entry_title := t; entry_data := d; entry_options := ∅;
             entry_unique_id := Some u |} ])%list).
Proof.
  intros Hm. unfold run_step.
  destruct (m st) as [[[s sch errs ph|t d|reason]|e] st0] eqn:Hr;
    destruct (Hm _ _ eq_refl) as [Hent Hfresh].
  - intros [= <- <-]. left. done.
  - intros [= <- <-]. right.
    destruct (Hfresh t d eq_refl) as (u & Hu & Hnew).
    exists t, d, u. split; [done|]. rewrite <- Hent. split; [done|].
    cbn. by rewrite Hu.
  - intros [= <- <-]. left. done.
  - destruct e; intros [= <- <-]; left; done.
Qed.

(** A step of the flow never updates and never removes an entry: it leaves
    the registry as it was, or, when it returns a created entry, and only
    then, has that one entry added at the end, under a unique identifier no
    entry had. *)
Theorem step_only_appends (cur : string) (depth : nat) (ui : option dict)
    (st : St) :
  let r := fst (run_step (async_step cur depth ui) st) in
  let st' := snd (run_step (async_step cur depth ui) st) in
  (entries st' = entries st /\ forall t d, r ≠ Ok (CreateEntry t d)) \/
  (exists t d u,
     r = Ok (CreateEntry t d) /\
     (Some u ∉ entry_unique_id <$> entries st) /\
     entries st'
     = (entries st ++
        [ {| entry_title := t; entry_data := d; entry_options := ∅;
             entry_unique_id := Some u |} ])%list).
Proof.
  cbv zeta.
  destruct (run_step (async_step cur depth ui) st) as [r st'] eqn:Hr.
  revert Hr. apply run_step_registry. intros r0 st0. apply async_step_entries.
Qed.

(** ** Unique identifiers stay unique *)

(** No two entries of the registry claim the same unique identifier. *)
Definition uids_unique (es : list ConfigEntry) : Prop :=
  forall i j e1 e2 u,
    i ≠ j -> es !! i = Some e1 -> es !! j = Some e2 ->
    entry_unique_id e1 = Some u -> entry_unique_id e2 ≠ Some u.

Lemma uids_unique_snoc (es : list ConfigEntry) (e : ConfigEntry) (u : string) :
  uids_unique es ->
  entry_unique_id e = Some u ->
  Some u ∉ entry_unique_id <$> es ->
  uids_unique (es ++ [e]).
Proof.
  intros Hu He Hnew i j e1 e2 u' Hij H1 H2 Hu1 Hu2.
  apply lookup_snoc_Some in H1 as [H1|[-> ->]];
    apply lookup_snoc_Some in H2 as [H2|[-> ->]]; try done.
  - by apply (Hu i j e1 e2 u').
  - apply Hnew. rewrite <- He, Hu2, <- Hu1.
    apply list_elem_of_fmap_2. apply list_elem_of_lookup. eauto.
  - apply Hnew. rewrite <- He, Hu1, <- Hu2.
    apply list_elem_of_fmap_2. apply list_elem_of_lookup. eauto.
Qed.

Lemma uids_unique_fmap (es es' : list ConfigEntry) :
  entry_unique_id <$> es' = entry_unique_id <$> es ->
  uids_unique es -> uids_unique es'.
Proof.
  intros Heq Hu i j e1 e2 u Hij H1 H2 Hu1.
  assert (Hl : forall k x, es' !! k = Some x ->
             exists y, es !! k = Some y /\ entry_unique_id y = entry_unique_id x).
  { intros k x Hk.
    apply (list_lookup_fmap_Some_2 entry_unique_id) in Hk.
    rewrite Heq in Hk. apply list_lookup_fmap_Some in Hk as (y & Hy & Hk).
    eauto. }
  destruct (Hl _ _ H1) as (y1 & Hy1 & E1). destruct (Hl _ _ H2) as (y2 & Hy2 & E2).
  rewrite <- E2. apply (Hu i j y1 y2 u); [done..|]. by rewrite E1.
Qed.

Lemma update_entry_uids (data options : dict) (i : nat) (es : list ConfigEntry) :
  entry_unique_id <$> alter (update_entry data options) i es
  = entry_unique_id <$> es.
Proof.
  revert i. induction es as [|e es IH]; intros [|i]; cbn; try done.
  f_equal. apply IH.
Qed.

Lemma import_entries_uids (i : nat) (es : list ConfigEntry) (ic : dict)
    (st st' : St) r :
  import_entries i es ic st = (r, st') ->
  entry_unique_id <$> entries st' = entry_unique_id <$> entries st.
Proof.
  revert i. induction es as [|e es IH]; intros i; [by intros [= _ <-]|].
  cbn [import_entries]. unfold_M.
  destruct (subscript (entry_data e) CONF_HOST); [|by intros [= _ <-]].
  destruct (subscript ic CONF_HOST); [|by intros [= _ <-]].
  destruct (_host_is_same _ _) as [[]|]; [|apply IH|by intros [= _ <-]].
  repeat case_match; intros; simplify_eq; try done;
    cbn; apply update_entry_uids.
Qed.

Lemma import_step_uids (depth : nat) (ic : dict) (st st' : St) r :
  async_step_import depth ic st = (r, st') ->
  entry_unique_id <$> entries st' = entry_unique_id <$> entries st /\
  claims_fresh r st'.
Proof.
  unfold async_step_import. unfold_M.
  destruct (import_entries 0 (entries st) ic st) as [[[r0|]|e] st0] eqn:Hi;
    pose proof (import_entries_uids _ _ _ _ _ _ Hi) as Hu;
    apply import_entries_flow in Hi as [_ Hr0].
  - intros [= <- <-]. split; [done|].
    destruct (Hr0 _ eq_refl) as [reason ->]. by intros t d ?.
  - intros Hr. split.
    + apply user_step_entries in Hr. cbn in Hr. by rewrite Hr.
    + by apply user_step_fresh in Hr.
  - intros [= <- <-]. split; [done|]. by intros t d ?.
Qed.

Lemma zeroconf_step_entries (depth : nat) (di : option dict) (st st' : St) r :
  async_step_zeroconf depth di st = (r, st') ->
  entries st' = entries st /\ claims_fresh r st'.
Proof.
  unfold async_step_zeroconf.
  assert (Hw : forall e (st0 : St), claims_fresh (Raise e) st0)
    by (by intros e st0 t d ?).
  destruct di as [di|]; [|intros [= <- <-]; by split].
  unfold_M.
  destruct (subscript di CONF_HOST) as [host|]; [|intros [= <- <-]; by split].
  destruct (value_split_colon_0 host); [|intros [= <- <-]; by split].
  destruct (_ && _); [intros [= <- <-]; by split|].
  destruct (subscript di CONF_PORT); [|intros [= <- <-]; by split].
  destruct (zeroconf_entries _ _ _) as [[[r0|]|e] st0] eqn:Hz;
    apply zeroconf_entries_flow in Hz as [-> Hr0].
  - intros [= <- <-]. split; [done|].
    destruct (Hr0 _ eq_refl) as [reason ->]. by intros t d ?.
  - destruct (subscript _ CONF_TYPE); [|intros [= <- <-]; by split].
    destruct (py_len _); [|intros [= <- <-]; by split].
    destruct (subscript _ CONF_NAME); [|intros [= <- <-]; by split].
    destruct (value_slice_to _ _); [|intros [= <- <-]; by split].
    destruct (subscript _ CONF_HOST); [|intros [= <- <-]; by split].
    destruct (async_guess_device_type _ _) as [cls w].
    intros Hr. split; [by apply user_step_entries in Hr|].
    by apply user_step_fresh in Hr.
  - intros [= <- <-]. by split.
Qed.

Lemma run_step_uids (m : M FlowResult) (st st' : St) r :
  (forall r0 st0, m st = (r0, st0) ->
     entry_unique_id <$> entries st0 = entry_unique_id <$> entries st /\
     claims_fresh r0 st0) ->
  uids_unique (entries st) ->
  run_step m st = (r, st') ->
  uids_unique (entries st').
Proof.
  intros Hm Hu. unfold run_step.
  destruct (m st) as [[[s sch errs ph|t d|reason]|e] st0] eqn:Hr;
    destruct (Hm _ _ eq_refl) as [Hent Hfresh];
    pose proof (uids_unique_fmap _ _ Hent Hu) as Hu0.
  - by intros [= <- <-].
  - intros [= <- <-]. destruct (Hfresh t d eq_refl) as (u & Hc & Hnew).
    cbn. by apply (uids_unique_snoc _ _ u).
  - by intros [= <- <-].
  - destruct e; by intros [= <- <-].
Qed.

(** Whatever the flow does, entered by a user, an import or a discovery or
    resumed at any step, and whatever the device answers, a registry in
    which no two entries claim the same unique identifier stays so. *)
Theorem flow_keeps_uids_unique (st : St) :
  uids_unique (entries st) ->
  (forall cur depth ui r st',
     run_step (async_step cur depth ui) st = (r, st') ->
     uids_unique (entries st')) /\
  (forall depth ic r st',
     run_step (async_step_import depth ic) st = (r, st') ->
     uids_unique (entries st')) /\
  (forall depth di r st',
     run_step (async_step_zeroconf depth di) st = (r, st') ->
     uids_unique (entries st')).
Proof.
  intros Hu. split; [|split].
  - intros cur depth ui r st'. apply run_step_uids; [|done].
    intros r0 st0 Hr. apply async_step_entries in Hr as [-> Hf]. done.
  - intros depth ic r st'. apply run_step_uids; [|done].
    intros r0 st0. apply import_step_uids.
  - intros depth di r st'. apply run_step_uids; [|done].
    intros r0 st0 Hr. apply zeroconf_step_entries in Hr as [-> Hf]. done.
Qed.

(** ** The form of step [user] keeps what was submitted *)

Lemma create_entry_if_unique_schema (d : dict) (st st' : St) r :
  _create_entry_if_unique d st = (r, st') ->
  _user_schema (flow st') = _user_schema (flow st).
Proof.
  unfold _create_entry_if_unique. unfold_M. cbn.
  repeat case_match; intros; by simplify_eq.
Qed.

Lemma pairing_complete_schema (sid : string) (st st' : St) r :
  _pairing_complete sid st = (r, st') ->
  _user_schema (flow st') = _user_schema (flow st).
Proof.
  unfold _pairing_complete. unfold_M. cbn.
  destruct (negb (flag (_must_show_form (flow st)))).
  - destruct (_data (flow st)); [|by intros [= _ <-]].
    apply create_entry_if_unique_schema.
  - repeat case_match; intros; by simplify_eq.
Qed.

(** Step [pair_tv] leaves the saved defaults alone, and when it falls back
    to the form of step [user], the form holds the pending config. *)
Lemma pair_tv_schema (depth : nat) (ui : option dict) (st st' : St) r :
  async_step_pair_tv depth ui st = (r, st') ->
  _user_schema (flow st') = _user_schema (flow st) /\
  forall d sch errs ph,
    _data (flow st) = Some d ->
    r = Ok (Form "user" sch errs ph) ->
    sch = _get_config_schema (Some d).
Proof.
  revert ui st. induction depth as [|depth IH]; intros ui st;
    [by intros [= <- <-]|].
  cbn [async_step_pair_tv]. unfold_M. cbn.
  destruct (negb (truthy (_ch_type (flow st)))
            && negb (truthy (_pairing_token (flow st)))).
  - destruct (_data (flow st)) as [d0|] eqn:Hd; [|by intros [= <- <-]].
    destruct (subscript d0 CONF_HOST); [|by intros [= <- <-]].
    destruct (subscript d0 CONF_NAME); [|by intros [= <- <-]].
    destruct (subscript d0 CONF_DEVICE_CLASS); [|by intros [= <- <-]].
    destruct (start_pair _ _ _ _) as [[pd|] w].
    + intros Hr. apply IH in Hr as [Hs Hf]. split; [done|].
      intros d sch errs ph [= <-] ->. by apply (Hf d0 sch errs ph).
    + intros [= <- <-]. split; [done|].
      intros d sch errs ph [= <-] [= <- _ _]. done.
  - destruct (_ && _); [|by intros [= <- <-]].
    destruct (_data (flow st)) as [d0|]; [|by intros [= <- <-]].
    destruct (subscript d0 CONF_HOST); [|by intros [= <- <-]].
    destruct (subscript d0 CONF_NAME); [|by intros [= <- <-]].
    destruct (subscript d0 CONF_DEVICE_CLASS); [|by intros [= <- <-]].
    destruct (pair _ _ _ _ _ _ _) as [[tok|] w]; [|by intros [= <- <-]].
    cbn. set (sid := if decide (_ = SOURCE_IMPORT) then _ else _).
    intros Hr.
    assert (Hc : _pairing_complete
                   (complete_step_id (source (context (flow st))))
                   (with_flow
                      (set_must_show_form true
                         (set_data (Some (<[CONF_ACCESS_TOKEN:=tok]> d0)) (flow st)))
                      (with_world w st)) = (r, st')).
    { rewrite <- Hr. unfold complete_step_id. by case_decide. }
    clear Hr. split; [by apply pairing_complete_schema in Hc|].
    intros d sch errs ph _ ->.
    apply pairing_complete_started in Hc as [_ Hsid].
    specialize (Hsid _ _ _ _ eq_refl). unfold complete_step_id in Hsid.
    by case_decide.
Qed.

(** A submission to step [user] is saved as the defaults of the form,
    whatever comes of it: a form of step [user] it leads to, with errors or
    after a failed [start_pair], holds the submitted values, and so does the
    form shown when the step is entered without input afterwards. *)
Theorem user_form_keeps_input (depth : nat) (ui : dict) (st : St) :
  let r := fst (async_step_user depth (Some ui) st) in
  let st' := snd (async_step_user depth (Some ui) st) in
  _user_schema (flow st') = Some (_get_config_schema (Some ui)) /\
  (forall sch errs ph,
     r = Ok (Form "user" sch errs ph) -> sch = _get_config_schema (Some ui)) /\
  (forall depth' st2,
     flow st2 = flow st' ->
     async_step_user depth' None st2
     = (Ok (Form "user" (_get_config_schema (Some ui)) ∅ None), st2)).
Proof.
  cbv zeta.
  assert (H : _user_schema (flow (snd (async_step_user depth (Some ui) st)))
              = Some (_get_config_schema (Some ui)) /\
              forall sch errs ph,
                fst (async_step_user depth (Some ui) st)
                = Ok (Form "user" sch errs ph) ->
                sch = _get_config_schema (Some ui)).
  { unfold async_step_user. unfold_M. cbn -[async_step_pair_tv].
    destruct (user_conflicts (entries st) ui ∅) as [errors|e]; [|by split].
    case_decide; cbn -[async_step_pair_tv];
      [|split; [done|]; by intros sch errs ph [= <- _ _]].
    destruct (_ && _); cbn -[async_step_pair_tv];
      [split; [done|]; by intros sch errs ph [= <- _ _]|].
    destruct (subscript ui CONF_DEVICE_CLASS) as [cls|]; [|by split].
    destruct (_ || _).
    - destruct (subscript ui CONF_HOST); [|by split].
      destruct (validate_ha_config _ _ _ _) as [valid w].
      case_decide; [|split; [done|]; by intros sch errs ph [= <- _ _]].
      destruct (_create_entry_if_unique ui _) as [r0 st0] eqn:Hr.
      pose proof (create_entry_if_unique_schema _ _ _ _ Hr) as Hs.
      pose proof (create_entry_if_unique_started _ _ _ _ Hr) as [_ Hf].
      cbn. split; [by rewrite Hs|].
      intros sch errs ph ->. by destruct (Hf "user" sch errs ph).
    - destruct (_ && _); cbn -[async_step_pair_tv];
        [split; [done|]; by intros sch errs ph [= <- _ _]|].
      destruct (async_step_pair_tv depth None _) as [r0 st0] eqn:Hr.
      apply pair_tv_schema in Hr as [Hs Hf]. cbn.
      split; [by rewrite Hs|].
      intros sch errs ph ->. by apply (Hf ui sch errs ph). }
  destruct H as [H1 H2]. split; [done|]. split; [done|].
  intros depth' st2 Hfl. unfold async_step_user. unfold_M. cbn.
  by rewrite Hfl, H1.
Qed.

(** ** Imports, again *)

Lemma merged_data_name (e : ConfigEntry) (n2 v2 : value) :
  merged_data e n2 v2 !! CONF_NAME = Some n2.
Proof.
  unfold merged_data.
  repeat case_decide; rewrite ?lookup_insert_ne by done;
    rewrite ?lookup_insert_eq; done.
Qed.

Lemma merged_data_volume (e : ConfigEntry) (n2 v2 : value) :
  py_get (merged_data e n2 v2) CONF_VOLUME_STEP = v2.
Proof.
  unfold merged_data, py_get.
  repeat case_decide; rewrite ?lookup_insert_eq;
    rewrite ?lookup_insert_ne by done; done.
Qed.

(** Importing the same configuration twice changes nothing the second time:
    whatever the first import did to the entry with the imported host, the
    second one finds it up to date and aborts with [already_setup]. *)
Theorem import_is_idempotent (depth depth' : nat) (st : St) (ic : dict)
    (pre post : list ConfigEntry) (e : ConfigEntry) (h : string)
    (n1 n2 v2 : value) :
  entries st = (pre ++ e :: post)%list ->
  Forall wf_entry pre ->
  existsb (same_host h) pre = false ->
  same_host h e = true ->
  entry_data e !! CONF_NAME = Some n1 ->
  ic !! CONF_HOST = Some (VStr h) ->
  ic !! CONF_NAME = Some n2 ->
  ic !! CONF_VOLUME_STEP = Some v2 ->
  let st1 := snd (run_step (async_step_import depth ic) st) in
  run_step (async_step_import depth' ic) st1 = (Ok (Abort "already_setup"), st1).
Proof.
  intros Hes Hwf Hpre He Hn1 Hh Hn2 Hv2. cbv zeta.
  rewrite (import_step_run depth st ic pre post e h n1 n2 v2
             Hes Hwf Hpre He Hn1 Hh Hn2 Hv2).
  case_bool_decide as Hch; cbn [snd].
  - rewrite (import_step_run depth' _ ic pre post
               (update_entry (merged_data e n2 v2) (merged_options e v2) e)
               h n2 n2 v2); try done.
    + rewrite bool_decide_eq_false_2; [done|].
      intros [?|Hv]; [done|]. apply Hv. apply merged_data_volume.
    + unfold same_host in *. cbn. by rewrite merged_data_host.
    + apply merged_data_name.
  - rewrite (import_step_run depth' st ic pre post e h n1 n2 v2
               Hes Hwf Hpre He Hn1 Hh Hn2 Hv2).
    by rewrite bool_decide_eq_false_2.
Qed.

(** The options flow and a later import. The options a user saved for an
    entry survive the import of a configuration that agrees with the entry's
    data on name and volume step: the import aborts with [already_setup] and
    the registry is as the options flow left it. *)
Theorem options_survive_import (depth : nat) (st : St) (ic ui : dict)
    (pre post : list ConfigEntry) (e : ConfigEntry) (h : string) (n : value) :
  Forall wf_entry pre ->
  existsb (same_host h) pre = false ->
  same_host h e = true ->
  entry_data e !! CONF_NAME = Some n ->
  ic !! CONF_HOST = Some (VStr h) ->
  ic !! CONF_NAME = Some n ->
  ic !! CONF_VOLUME_STEP = Some (py_get (entry_data e) CONF_VOLUME_STEP) ->
  let es' := (pre ++ update_entry (entry_data e) ui e :: post)%list in
  run_options_step (length pre) (Some ui) (pre ++ e :: post)
  = Some (CreateEntry (VStr "") ui, es') /\
  (entries st = es' ->
   run_step (async_step_import depth ic) st = (Ok (Abort "already_setup"), st)).
Proof.
  intros Hwf Hpre He Hn Hh Hn2 Hv2. cbv zeta. split.
  - unfold run_options_step.
    rewrite lookup_app_r, Nat.sub_diag by done. cbn.
    rewrite alter_app_r_alt, Nat.sub_diag by done. done.
  - intros Hes.
    rewrite (import_step_run depth st ic pre post
               (update_entry (entry_data e) ui e) h n n
               (py_get (entry_data e) CONF_VOLUME_STEP)); try done.
    rewrite bool_decide_eq_false_2; [done|]. by intros [?|?].
Qed.

(** ** Imports that match no entry *)

Lemma import_reenters_user (depth : nat) (st : St) (ic : dict) (h : string) :
  Forall wf_entry (entries st) ->
  ic !! CONF_HOST = Some (VStr h) ->
  ~ host_taken h (entries st) ->
  async_step_import depth ic st
  = async_step_user depth (Some ic)
      (with_flow (set_must_show_form true (flow st)) st).
Proof.
  intros Hwf Hh Hht. unfold async_step_import. unfold_M. cbn.
  pose proof (import_entries_skip (entries st) [] 0 ic h st Hwf Hh) as Hskip.
  rewrite app_nil_r in Hskip. rewrite Hskip.
  - done.
  - rewrite host_taken_existsb in Hht. by destruct (existsb _ _).
Qed.

(** The import of a TV without access token, with a host and a name no entry
    has: the form of step [user] is shown once, as a warning, before any call
    to the device; the flag is then down, and the same input submitted to the
    form goes on to pairing. *)
Theorem import_tv_without_token_warns (depth depth' : nat) (st : St)
    (ic : dict) (h : string) (n cls : value) :
  Forall wf_entry (entries st) ->
  source (context (flow st)) = SOURCE_IMPORT ->
  ic !! CONF_HOST = Some (VStr h) ->
  ic !! CONF_NAME = Some n ->
  ic !! CONF_DEVICE_CLASS = Some cls ->
  cls ≠ DEVICE_CLASS_SPEAKER ->
  truthy (py_get ic CONF_ACCESS_TOKEN) = false ->
  ~ host_taken h (entries st) ->
  ~ name_taken n (entries st) ->
  let st1 :=
    with_flow (set_must_show_form false (flow (saved_defaults ic st))) st in
  run_step (async_step_import depth ic) st
  = (Ok (Form "user" (_get_config_schema (Some ic)) ∅ None), st1) /\
  world st1 = world st /\
  async_step_user depth' (Some ic) st1
  = async_step_pair_tv depth' None (stashed ic st1).
Proof.
  intros Hwf Hsrc Hh Hn Hc Hcls Htok Hht Hnt. cbv zeta.
  split; [|split; [done|]].
  - unfold run_step. rewrite (import_reenters_user depth st ic h Hwf Hh Hht).
    unfold async_step_user. unfold_M. cbn.
    rewrite (user_conflicts_none _ _ _ _ Hwf Hh Hn Hht Hnt). cbn.
    rewrite decide_True by done. cbn. rewrite Hsrc.
    change (flag (Some true)) with true.
    rewrite (bool_decide_eq_false_2 (SOURCE_IMPORT = SOURCE_ZEROCONF)) by done.
    cbn. rewrite (subscript_Some _ _ _ Hc), Htok.
    rewrite (bool_decide_eq_false_2 (cls = _)) by done.
    rewrite bool_decide_eq_true_2 by done. cbn. done.
  - unfold async_step_user. unfold_M. cbn.
    rewrite (user_conflicts_none _ _ _ _ Hwf Hh Hn Hht Hnt). cbn.
    rewrite decide_True by done. cbn.
    change (flag (Some false)) with false. cbn.
    rewrite (subscript_Some _ _ _ Hc), Htok.
    rewrite (bool_decide_eq_false_2 (cls = _)) by done. cbn. done.
Qed.

(** ** Confirmation of a discovery *)

(** The first submission after a discovery only confirms it. With a host or
    a name that an entry has, the form comes back with errors and the flag
    stays up, so that the next submission is a confirmation again; without
    conflict the form comes back once more, without errors, and the flag is
    down. Neither round calls the device or touches the registry. *)
Theorem discovery_confirmed_without_conflict (depth : nat) (st : St)
    (ui : dict) (h : string) (n : value) :
  Forall wf_entry (entries st) ->
  ui !! CONF_HOST = Some (VStr h) ->
  ui !! CONF_NAME = Some n ->
  flag (_must_show_form (flow st)) = true ->
  source (context (flow st)) = SOURCE_ZEROCONF ->
  (host_taken h (entries st) \/ name_taken n (entries st) ->
   exists errors,
     errors ≠ ∅ /\
     run_step (async_step_user depth (Some ui)) st
     = (Ok (Form "user" (_get_config_schema (Some ui)) errors None),
        saved_defaults ui st) /\
     flag (_must_show_form (flow (saved_defaults ui st))) = true) /\
  (~ host_taken h (entries st) -> ~ name_taken n (entries st) ->
   run_step (async_step_user depth (Some ui)) st
   = (Ok (Form "user" (_get_config_schema (Some ui)) ∅ None),
      with_flow (set_must_show_form false (flow (saved_defaults ui st))) st)).
Proof.
  intros Hwf Hh Hn Hflag Hsrc. split.
  - intros Htaken.
    exists (conflict_errors (existsb (same_host h) (entries st))
              (existsb (same_name n) (entries st)) ∅).
    assert (Hne : conflict_errors (existsb (same_host h) (entries st))
                    (existsb (same_name n) (entries st)) ∅ ≠ ∅).
    { rewrite conflict_errors_empty. intros [Ha Hb].
      destruct Htaken as [Ht|Ht].
      - apply host_taken_existsb in Ht. congruence.
      - apply name_taken_existsb in Ht. congruence. }
    split; [done|]. split; [|done].
    unfold run_step, async_step_user. unfold_M. cbn.
    rewrite (user_conflicts_spec _ _ _ _ _ Hwf Hh Hn).
    cbn -[conflict_errors]. rewrite decide_False by done.
    cbn -[conflict_errors]. done.
  - intros Hht Hnt. unfold run_step, async_step_user. unfold_M. cbn.
    rewrite (user_conflicts_none _ _ _ _ Hwf Hh Hn Hht Hnt). cbn.
    rewrite decide_True by done. cbn. rewrite Hflag, Hsrc. cbn. done.
Qed.

(** ** The form a discovery shows *)

(** A discovery whose advertised name is [p], a dot and the service type,
    on a host [h] no entry has: the form of step [user] comes with [p] as
    the default name, [h:port] as the default host and the device class the
    device client guessed. *)
Theorem discovery_form_defaults (depth : nat) (st : St) (di : dict)
    (h : string) (port : value) (p ty : string) (cls : value) (w : World) :
  Forall wf_entry (entries st) ->
  source (context (flow st)) = SOURCE_ZEROCONF ->
  di !! CONF_HOST = Some (VStr h) ->
  di !! CONF_PORT = Some port ->
  di !! CONF_TYPE = Some (VStr ty) ->
  di !! CONF_NAME = Some (VStr (p ++ "." ++ ty)) ->
  Some (split_colon_0 h) ∉ unique_id <$> in_progress st ->
  ~ host_taken h (entries st) ->
  async_guess_device_type (VStr (h ++ ":" ++ py_str port)) (world st) = (cls, w) ->
  exists sch errors st' val,
    run_step (async_step_zeroconf depth (Some di)) st
    = (Ok (Form "user" sch errors None), st') /\
    schema_fields sch !! 0%nat = Some (Required CONF_NAME (VStr p), v_str) /\
    schema_fields sch !! 1%nat
    = Some (Required CONF_HOST (VStr (h ++ ":" ++ py_str port)), v_str) /\
    schema_fields sch !! 2%nat = Some (Required CONF_DEVICE_CLASS cls, val) /\
    entries st' = entries st /\ world st' = w.
Proof.
  intros Hwf Hsrc Hh Hp Ht Hn Hprog Hht Hg.
  unfold run_step.
  rewrite (zeroconf_reenters_user depth st di h port _ ty cls w
             Hwf Hh Hp Ht Hn Hprog Hht Hg).
  set (ui := assembled di h port (p ++ "." ++ ty) ty cls).
  assert (Hh' : ui !! CONF_HOST = Some (VStr (h ++ ":" ++ py_str port))).
  { unfold ui, assembled. rewrite !lookup_insert_ne by done.
    by rewrite lookup_insert_eq. }
  assert (Hn' : ui !! CONF_NAME = Some (VStr p)).
  { unfold ui, assembled. rewrite lookup_insert_ne by done.
    by rewrite lookup_insert_eq, stripped_name_suffix. }
  assert (Hc' : ui !! CONF_DEVICE_CLASS = Some cls).
  { unfold ui, assembled. by rewrite lookup_insert_eq. }
  clearbody ui.
  unfold async_step_user. unfold_M. cbn.
  rewrite (user_conflicts_spec _ _ _ _ _ Hwf Hh' Hn').
  cbn -[conflict_errors].
  exists (_get_config_schema (Some ui)).
  case_decide as He; cbn -[conflict_errors].
  - rewrite Hsrc. cbn. eexists _, _, _. split; [reflexivity|].
    cbn. unfold py_get_default, py_get. rewrite Hh', Hn', Hc'. done.
  - eexists _, _, _. split; [reflexivity|].
    cbn. unfold py_get_default, py_get. rewrite Hh', Hn', Hc'. done.
Qed.

End Properties.

(** * Concrete flows *)

Module Examples.

Definition consts : ComponentConst :=
  {| DEFAULT_NAME := VStr "Vizio SmartCast"; DEFAULT_DEVICE_CLASS := VStr "tv" |}.

(** The text of the examples is ASCII, and lowered as such. *)
#[local] Instance ascii_text : PyStr :=
  {| str_lower := ascii_str_lower; str_lower_ascii := fun s _ => eq_refl |}.

(** A device whose answers are fixed; its world has a single state. *)
Definition device (uid : string) (valid : bool) (pd : option PairData)
    (auth : option value) : DeviceClient unit :=
  {| get_unique_id := fun _ _ _ w => (uid, w);
     validate_ha_config := fun _ _ _ w => (valid, w);
     async_guess_device_type := fun _ w => (DEVICE_CLASS_TV, w);
     start_pair := fun _ _ _ w => (pd, w);
     pair := fun _ _ _ _ _ _ w => (auth, w) |}.

Definition config (name host cls : string) : dict :=
  {[ CONF_NAME := VStr name; CONF_HOST := VStr host;
     CONF_DEVICE_CLASS := VStr cls ]}.

Definition entry_of (name host : string) (uid : string) : ConfigEntry :=
  {| entry_title := VStr name;
     entry_data := <[CONF_VOLUME_STEP := VInt 1]> (config name host "tv");
     entry_options := {[ CONF_VOLUME_STEP := VInt 1 ]};
     entry_unique_id := Some uid |}.

Definition living_room : ConfigEntry := entry_of "Living Room" "1.2.3.4:9000" "A".
Definition bedroom : ConfigEntry := entry_of "Bedroom" "5.6.7.8:9000" "B".

Definition state (es : list ConfigEntry) (others : list Context) (src : Source)
    : St unit :=
  {| entries := es; in_progress := others; world := tt;
     flow := init_flow {| source := src; unique_id := None |} |}.

Ltac solve_wf :=
  cbn; repeat (apply List.Forall_cons; [split; eexists; reflexivity|]);
  apply List.Forall_nil.

Ltac not_taken :=
  first [rewrite host_taken_existsb | rewrite name_taken_existsb];
  vm_compute; discriminate.

(** *** Step [user] *)

(** The spec's example: the host of an existing entry with another port,
    and its name. *)
Lemma user_step_conflict_check_witness :
  exists errors st',
    @run_step unit
      (@async_step_user consts unit (device "C" true None None) 0
         (Some (config "Living Room" "1.2.3.4:200" "speaker")))
      (state [living_room] [] SOURCE_USER)
    = (Ok (Form "user"
             (@_get_config_schema consts
                (Some (config "Living Room" "1.2.3.4:200" "speaker")))
             errors None), st') /\
    entries st' = [living_room] /\
    errors !! CONF_HOST = Some "host_exists" /\
    errors !! CONF_NAME = Some "name_exists".
Proof.
  destruct (@user_step_conflict_check consts unit (device "C" true None None)
              0 (state [living_room] [] SOURCE_USER)
              (config "Living Room" "1.2.3.4:200" "speaker")
              "1.2.3.4:200" (VStr "Living Room"))
    as [_ H]; [solve_wf | reflexivity | reflexivity |].
  assert (Hh : host_taken "1.2.3.4:200"
                 (entries (state [living_room] [] SOURCE_USER))).
  { exists living_room. split; [apply list_elem_of_here | reflexivity]. }
  assert (Hn : name_taken (VStr "Living Room")
                 (entries (state [living_room] [] SOURCE_USER))).
  { exists living_room. split; [apply list_elem_of_here | reflexivity]. }
  destruct (H (or_introl Hh)) as (errors & st' & Hrun & Hent & H1 & H2).
  exists errors, st'. auto.
Defined.

(** The spec's example: a speaker, reachable, no conflict: the entry is
    created with no recursion depth left for pairing. *)
Lemma user_step_validates_witness :
  let dev := device "C" true None None in
  let ui := config "Living Room" "1.2.3.4" "speaker" in
  let r := @run_step unit (@async_step_user consts unit dev 0 (Some ui))
             (state [] [] SOURCE_USER) in
  fst r = Ok (CreateEntry (VStr "Living Room") ui) /\
  entries (snd r)
  = [ {| entry_title := VStr "Living Room"; entry_data := ui;
         entry_options := ∅; entry_unique_id := Some "C" |} ].
Proof.
  intros dev ui r. unfold r.
  rewrite (@user_step_validates consts unit dev 0 (state [] [] SOURCE_USER) ui
             "1.2.3.4" (VStr "Living Room") (VStr "speaker") true tt).
  - split; vm_compute; reflexivity.
  - solve_wf.
  - reflexivity.
  - reflexivity.
  - reflexivity.
  - intros (e & He & _). by apply not_elem_of_nil in He.
  - intros (e & He & _). by apply not_elem_of_nil in He.
  - intros [H _]. vm_compute in H. discriminate.
  - left. reflexivity.
  - reflexivity.
Defined.

(** A TV without token whose [start_pair] fails: back to the form of step
    [user]. *)
Lemma user_step_starts_pairing_witness :
  let dev := device "C" true None None in
  let ui := config "Den" "9.9.9.9" "tv" in
  let st := state [living_room] [] SOURCE_USER in
  @run_step unit (@async_step_user consts unit dev 1 (Some ui)) st
  = (Ok (Form "user" (@_get_config_schema consts (Some ui))
           {["base" := "cant_connect"]} None),
     with_world tt (@stashed consts unit ui st)).
Proof.
  intros dev ui st.
  destruct (@user_step_starts_pairing consts unit dev 0 st ui "9.9.9.9"
              (VStr "Den")) as (_ & _ & H).
  - solve_wf.
  - reflexivity.
  - reflexivity.
  - reflexivity.
  - reflexivity.
  - not_taken.
  - not_taken.
  - intros [H _]. vm_compute in H. discriminate.
  - intros [H _]. vm_compute in H. discriminate.
  - apply (H tt); reflexivity.
Defined.

(** *** Finalization *)

Lemma create_entry_if_unique_finalizes_witness :
  let dev := device "D" true None None in
  let cfg := config "Den" "9.9.9.9" "speaker" in
  let st := state [living_room] [] SOURCE_USER in
  exists st',
    @run_step unit (@_create_entry_if_unique unit dev cfg) st
    = (Ok (CreateEntry (VStr "Den") cfg), st') /\
    entries st'
    = [ living_room;
        {| entry_title := VStr "Den"; entry_data := cfg; entry_options := ∅;
           entry_unique_id := Some "D" |} ].
Proof.
  intros dev cfg st.
  destruct (@create_entry_if_unique_finalizes unit dev st cfg
              (VStr "9.9.9.9") (VStr "speaker") (VStr "Den") "D" tt)
    as [_ H]; [reflexivity | reflexivity | reflexivity | reflexivity |].
  apply H. intros [Hc|Hc]; apply list_elem_of_In in Hc; cbn in Hc;
    intuition discriminate.
Defined.

(** *** Step [import] *)

(** The spec's example: an import that differs from the entry of its host
    in the volume step only. *)
Lemma import_step_merges_witness :
  let dev := device "C" true None None in
  let ic := <[CONF_VOLUME_STEP := VInt 5]> (config "Living Room" "1.2.3.4:7345" "tv") in
  let st := state [bedroom; living_room] [] SOURCE_IMPORT in
  let updated :=
    update_entry (<[CONF_VOLUME_STEP := VInt 5]> (entry_data living_room))
      {[ CONF_VOLUME_STEP := VInt 5 ]} living_room in
  @run_step unit (@async_step_import consts unit dev 0 ic) st
  = (Ok (Abort "updated_entry"), with_entries [bedroom; updated] st).
Proof.
  intros dev ic st updated.
  destruct (@import_step_merges consts unit dev 0 st ic [bedroom] []
              living_room "1.2.3.4:7345" (VStr "Living Room")
              (VStr "Living Room") (VInt 5)) as (H & _ & _);
    [reflexivity | solve_wf | reflexivity | reflexivity | reflexivity
    | reflexivity | reflexivity | reflexivity |].
  rewrite H.
  - vm_compute. reflexivity.
  - right. vm_compute. discriminate.
Defined.

(** The volume step that the import compares is the one of the entry's data.
    An entry that step [user] created holds none there: imported with its
    own name and the volume step 1 that its options stand for, it is
    updated. An entry whose options were set to 7 and whose data holds 1,
    imported with volume step 1, is left as it is. *)
Lemma import_compares_data_volume_step :
  let dev := device "C" true None None in
  let ui := config "Living Room" "1.2.3.4:9000" "speaker" in
  let made :=
    {| entry_title := VStr "Living Room"; entry_data := ui; entry_options := ∅;
       entry_unique_id := Some "C" |} in
  let ic := <[CONF_VOLUME_STEP := VInt 1]> ui in
  let r := @run_step unit (@async_step_import consts unit dev 0 ic)
             (state [made] [] SOURCE_IMPORT) in
  let set7 :=
    update_entry (entry_data living_room) {[ CONF_VOLUME_STEP := VInt 7 ]}
      living_room in
  let ic' := <[CONF_VOLUME_STEP := VInt 1]>
               (config "Living Room" "1.2.3.4:9000" "tv") in
  let st' := state [set7] [] SOURCE_IMPORT in
  entries (snd (@run_step unit (@async_step_user consts unit dev 0 (Some ui))
                  (state [] [] SOURCE_USER))) = [made] /\
  entry_data made !! CONF_NAME = ic !! CONF_NAME /\
  Some (spec_volume_step made) = ic !! CONF_VOLUME_STEP /\
  fst r = Ok (Abort "updated_entry") /\
  entries (snd r)
  = [update_entry ic {[ CONF_VOLUME_STEP := VInt 1 ]} made] /\
  run_options_step 0 (Some {[ CONF_VOLUME_STEP := VInt 7 ]}) [living_room]
  = Some (CreateEntry (VStr "") {[ CONF_VOLUME_STEP := VInt 7 ]}, [set7]) /\
  entry_data set7 !! CONF_NAME = ic' !! CONF_NAME /\
  spec_volume_step set7 = VInt 7 /\
  ic' !! CONF_VOLUME_STEP = Some (VInt 1) /\
  @run_step unit (@async_step_import consts unit dev 0 ic') st'
  = (Ok (Abort "already_setup"), st').
Proof. vm_compute. repeat split; reflexivity. Qed.

(** *** Pairing *)

Definition handshake : PairData := {| ch_type := VInt 1; token := VInt 42 |}.

(** A handshake state that is empty. *)
Definition empty_handshake : PairData := {| ch_type := VInt 0; token := VStr "" |}.

(** A flow that has stashed [d] as pending config and not started pairing. *)
Definition pending (d : dict) (es : list ConfigEntry) (src : Source) : St unit :=
  with_flow (set_data (Some d) (flow (state es [] src))) (state es [] src).

(** A pairing that succeeds on a device nobody has configured: the PIN form,
    the confirmation form, the entry with the token. *)
Lemma pairing_creates_entry_witness :
  let dev := device "D" true (Some handshake) (Some (VStr "secret")) in
  let d := config "Den" "9.9.9.9" "tv" in
  let d' := <[CONF_ACCESS_TOKEN := VStr "secret"]> d in
  let r1 := @run_step unit (@async_step_pair_tv consts unit dev 2 None)
              (pending d [living_room] SOURCE_USER) in
  let r2 := @run_step unit
              (@async_step consts unit dev "pair_tv" 1
                 (Some {[ CONF_PIN := VStr "1234" ]})) (snd r1) in
  let r3 := @run_step unit
              (@async_step consts unit dev "pairing_complete" 0 None) (snd r2) in
  fst r1 = Ok (Form "pair_tv" (_get_pairing_schema None) ∅ None) /\
  fst r2 = Ok (Form "pairing_complete" empty_schema ∅
                 (Some {["access_token" := VStr "secret"]})) /\
  fst r3 = Ok (CreateEntry (VStr "Den") d') /\
  entries (snd r3)
  = [ living_room;
      {| entry_title := VStr "Den"; entry_data := d'; entry_options := ∅;
         entry_unique_id := Some "D" |} ].
Proof.
  intros dev d d' r1 r2 r3.
  destruct (@pairing_creates_entry consts unit dev 0
              (pending d [living_room] SOURCE_USER) d
              (VStr "9.9.9.9") (VStr "Den") (VStr "tv") handshake tt)
    as [H1 H]; try reflexivity.
  assert (E1 : r1 = (Ok (Form "pair_tv" (_get_pairing_schema None) ∅ None),
                    with_flow (pairing_started handshake
                                 (flow (pending d [living_room] SOURCE_USER)))
                      (with_world tt (pending d [living_room] SOURCE_USER))))
    by exact H1.
  destruct (H (snd r1) {[ CONF_PIN := VStr "1234" ]} (VStr "1234")
              (VStr "secret") tt) as (H2 & _ & _ & H3);
    [by rewrite E1 | reflexivity | reflexivity | reflexivity |].
  assert (E2 : r2 = (Ok (Form "pairing_complete" empty_schema ∅
                           (Some {["access_token" := VStr "secret"]})),
                    with_flow (pairing_completed d (VStr "secret") (flow (snd r1)))
                      (with_world tt (snd r1))))
    by exact H2.
  destruct (H3 (snd r2) None "D" tt) as [Hnew _];
    [by rewrite E2 | reflexivity |].
  destruct Hnew as (st3 & H4 & H5).
  { rewrite E2, E1. intros [Hc|Hc]; apply list_elem_of_In in Hc; cbn in Hc;
      intuition discriminate. }
  assert (E3 : r3 = (Ok (CreateEntry (VStr "Den") d'), st3)) by exact H4.
  rewrite E1 at 1. rewrite E2 at 1. rewrite E3. cbn [fst snd].
  repeat split; try reflexivity.
  rewrite H5, E2, E1. reflexivity.
Defined.

(** Two pairings in which both calls to the device succeed and no entry is
    created. On a device that an existing entry already has under another
    host and name, the confirmation form is shown and finalization aborts;
    no entry holds the token. On a device whose [start_pair] answers an
    empty handshake state, step [pair_tv] starts pairing over and over and
    raises [RecursionError]: no PIN form is shown. *)
Lemma pairing_creates_no_entry :
  let dev := device "A" true (Some handshake) (Some (VStr "secret")) in
  let d := config "Den" "9.9.9.9" "tv" in
  let r1 := @run_step unit (@async_step consts unit dev "user" 2 (Some d))
              (state [living_room] [] SOURCE_USER) in
  let r2 := @run_step unit
              (@async_step consts unit dev "pair_tv" 1
                 (Some {[ CONF_PIN := VStr "1234" ]})) (snd r1) in
  let r3 := @run_step unit
              (@async_step consts unit dev "pairing_complete" 0 None) (snd r2) in
  let dev0 := device "D" true (Some empty_handshake) (Some (VStr "secret")) in
  let r0 := @run_step unit (@async_step consts unit dev0 "user" 1000 (Some d))
              (state [living_room] [] SOURCE_USER) in
  (fst r1 = Ok (Form "pair_tv" (_get_pairing_schema None) ∅ None) /\
   fst r2 = Ok (Form "pairing_complete" empty_schema ∅
                  (Some {["access_token" := VStr "secret"]})) /\
   _data (flow (snd r2)) = Some (<[CONF_ACCESS_TOKEN := VStr "secret"]> d) /\
   fst r3 = Ok (Abort "already_configured") /\
   entries (snd r3) = [living_room]) /\
  (@start_pair unit dev0 (VStr "9.9.9.9") (VStr "Den") (VStr "tv") tt
   = (Some empty_handshake, tt) /\
   fst r0 = Raise RecursionError /\
   entries (snd r0) = [living_room]).
Proof. vm_compute. repeat split; reflexivity. Qed.

(** The device of these flows hands out a handshake state, and the flow
    that submits a TV without token waits at step [pair_tv], pairing
    started. *)
Lemma device_handshakes (uid : string) (valid : bool) (auth : option value) :
  @handshakes unit (device uid valid (Some handshake) auth).
Proof. intros host name cls w pd w' [= <- _]. reflexivity. Qed.

Example session_at_pair_tv :
  let dev := device "D" true (Some handshake) (Some (VStr "secret")) in
  let r := @run_step unit
             (@async_step_user consts unit dev 2 (Some (config "Den" "9.9.9.9" "tv")))
             (@fresh unit [living_room] [] tt SOURCE_USER) in
  @session consts unit dev "pair_tv" (snd r) /\
  @started (flow (snd r)) = true.
Proof.
  intros dev r. split; [|reflexivity].
  eapply (@session_user consts unit dev [living_room] [] tt 0
            (Some (config "Den" "9.9.9.9" "tv"))).
  vm_compute. reflexivity.
Qed.

(** *** Step [zeroconf] *)

Definition service_type : string := "_viziocast._tcp.local.".

Definition discovery (name host : string) : dict :=
  {[ CONF_HOST := VStr host; CONF_PORT := VInt 9000; CONF_NAME := VStr name;
     CONF_TYPE := VStr service_type ]}.

(** A discovery of a host no entry has: the form of step [user], with the
    name stripped of the service type. *)
Lemma zeroconf_step_discovers_witness :
  let dev := device "C" true None None in
  let di := discovery ("Den." ++ service_type) "9.9.9.9" in
  let st := state [living_room] [] SOURCE_ZEROCONF in
  let ui := @assembled di "9.9.9.9" (VInt 9000) ("Den." ++ service_type)
              service_type DEVICE_CLASS_TV in
  ui !! CONF_NAME = Some (VStr "Den") /\
  ui !! CONF_HOST = Some (VStr "9.9.9.9:9000") /\
  exists errors st',
    @run_step unit (@async_step_zeroconf consts unit dev 0 (Some di)) st
    = (Ok (Form "user" (@_get_config_schema consts (Some ui)) errors None), st') /\
    entries st' = [living_room].
Proof.
  intros dev di st ui.
  destruct (@zeroconf_step_discovers consts unit dev 0 st di "9.9.9.9" (VInt 9000))
    as [_ H].
  - solve_wf.
  - reflexivity.
  - reflexivity.
  - reflexivity.
  - cbn. apply not_elem_of_nil.
  - destruct (H ltac:(not_taken) ("Den." ++ service_type) service_type
                DEVICE_CLASS_TV tt) as (_ & _ & errors & st' & Hrun & Hent);
      [reflexivity | reflexivity | reflexivity |].
    split; [vm_compute; reflexivity|]. split; [vm_compute; reflexivity|].
    exists errors, st'. split; [exact Hrun | exact Hent].
Defined.

(** A discovery of a host that another flow in progress has claimed, and
    that no entry has: the flow aborts and step [user] is not entered. *)
Lemma discovery_aborts_when_in_progress :
  let dev := device "C" true None None in
  let di := discovery ("Den." ++ service_type) "9.9.9.9" in
  let other := {| source := SOURCE_ZEROCONF; unique_id := Some "9.9.9.9" |} in
  let st := state [living_room] [other] SOURCE_ZEROCONF in
  ~ host_taken "9.9.9.9" (entries st) /\
  exists reason,
    @run_step unit (@async_step_zeroconf consts unit dev 1 (Some di)) st
    = (Ok (Abort reason), st).
Proof.
  split; [not_taken|]. eexists. vm_compute. reflexivity.
Qed.

(** A name that does not end with the service type loses its tail all the
    same: here all of it. *)
Lemma zeroconf_strips_name_unchecked_witness :
  let dev := device "C" true None None in
  let di := discovery "Bedroom TV" "9.9.9.9" in
  let st := state [living_room] [] SOURCE_ZEROCONF in
  exists sch errors st',
    @run_step unit (@async_step_zeroconf consts unit dev 0 (Some di)) st
    = (Ok (Form "user" sch errors None), st') /\
    schema_fields sch !! 0%nat = Some (Required CONF_NAME (VStr ""), v_str).
Proof.
  intros dev di st.
  destruct (@zeroconf_strips_name_unchecked consts unit dev 0 st di "9.9.9.9"
              (VInt 9000) "Bedroom TV" service_type DEVICE_CLASS_TV tt)
    as (_ & _ & sch & errors & st' & Hrun & Hsch).
  - solve_wf.
  - reflexivity.
  - reflexivity.
  - reflexivity.
  - reflexivity.
  - reflexivity.
  - cbn. apply not_elem_of_nil.
  - not_taken.
  - reflexivity.
  - exists sch, errors, st'. split; [exact Hrun | exact Hsch].
Defined.

(** *** The options flow *)

Lemma options_flow_init_witness :
  run_options_step 0 (Some {[ CONF_VOLUME_STEP := VInt 7 ]}) [living_room]
  = Some (CreateEntry (VStr "") {[ CONF_VOLUME_STEP := VInt 7 ]},
          [update_entry (entry_data living_room) {[ CONF_VOLUME_STEP := VInt 7 ]}
             living_room]) /\
  run_options_step 0 None [living_room]
  = Some (Form "init" (options_schema living_room) ∅ None, [living_room]) /\
  schema_fields (options_schema living_room)
  = [ (Optional CONF_VOLUME_STEP (VInt 1), volume_step_validator) ].
Proof.
  destruct (options_flow_init (fun _ => None) [living_room] 0 living_room)
    as (H1 & H2 & _ & H3); [reflexivity|].
  destruct (H3 {[ CONF_VOLUME_STEP := VInt 7 ]}) as (es' & Hrun & _).
  split; [vm_compute; reflexivity|]. split; [exact H1|].
  rewrite H2. vm_compute. reflexivity.
Defined.

(** The value 11 is refused, where clamping would make it 10. *)
Lemma volume_step_not_clamped :
  validate (fun _ => None) volume_step_validator (VInt 11) = None /\
  spec_clamped_volume_step (fun _ => None) (VInt 11) = Some (VInt 10).
Proof. split; reflexivity. Qed.

(** *** Uniqueness *)

Definition renamed : ConfigEntry :=
  update_entry (<[CONF_NAME := VStr "Bedroom"]> (entry_data living_room))
    (entry_options living_room) living_room.

(** C1: the registry holds two entries with distinct hosts and names; an
    import with the host of the first and the name of the second renames
    the first, and the registry holds two entries of one name. *)
Theorem import_rename_duplicates_name :
  let dev := device "C" true None None in
  let ic := <[CONF_VOLUME_STEP := VInt 1]> (config "Bedroom" "1.2.3.4:9000" "tv") in
  let st := state [living_room; bedroom] [] SOURCE_IMPORT in
  entries_unique (entries st) /\
  @run_step unit (@async_step_import consts unit dev 0 ic) st
  = (Ok (Abort "updated_entry"), with_entries [renamed; bedroom] st) /\
  ~ names_unique [renamed; bedroom].
Proof.
  intros dev ic st. split; [|split].
  - split; intros i j e1 e2 x Hij H1 H2 Hx;
      destruct i as [|[|i]], j as [|[|j]]; try done;
      cbn in H1, H2; simplify_eq; vm_compute in Hx; simplify_eq;
      vm_compute; reflexivity.
  - vm_compute. reflexivity.
  - intros H.
    specialize (H 0%nat 1%nat renamed bedroom (VStr "Bedroom")).
    assert (Hs : same_name (VStr "Bedroom") bedroom = true) by reflexivity.
    rewrite H in Hs; [discriminate | done | reflexivity | reflexivity
                     | vm_compute; reflexivity].
Qed.


(** *** Further examples *)

Ltac solve_unique :=
  let i := fresh "i" in
  let j := fresh "j" in
  intros i j ? ? ? ? H1 H2 Hx;
  destruct i as [|[|i]], j as [|[|j]]; try done;
  cbn in H1, H2; simplify_eq; vm_compute in Hx; simplify_eq;
  try (vm_compute; reflexivity); try discriminate.

(** The spec's hosts: one device behind two ports. *)
Lemma host_is_same_ignores_port_witness :
  _host_is_same (VStr "1.2.3.4:9000") (VStr "1.2.3.4:7345") = Ok true /\
  _host_is_same (VStr "1.2.3.4") (VStr "1.2.3.4:7345") = Ok true /\
  _host_is_same (VStr "1.2.3.4:9000") (VStr "1.2.3.4") = Ok true.
Proof.
  exact (host_is_same_ignores_port "1.2.3.4" "1.2.3.4" "9000" "7345"
           eq_refl eq_refl).
Defined.



Lemma pair_tv_empty_handshake_overflows_witness :
  let dev := device "D" true (Some empty_handshake) (Some (VStr "secret")) in
  let st := pending (config "Den" "9.9.9.9" "tv") [living_room] SOURCE_USER in
  exists st',
    @run_step unit (@async_step_pair_tv consts unit dev 1000 None) st
    = (Raise RecursionError, st') /\
    entries st' = [living_room].
Proof.
  intros dev st.
  apply (@pair_tv_empty_handshake_overflows consts unit dev 1000 None st
           (config "Den" "9.9.9.9" "tv") (VStr "9.9.9.9") (VStr "Den")
           (VStr "tv")); try reflexivity.
  intros w. exists empty_handshake, w. repeat split.
Defined.

Lemma flow_keeps_uids_unique_witness :
  let dev := device "D" true None None in
  let st := state [living_room; bedroom] [] SOURCE_USER in
  let r := @run_step unit
             (@async_step consts unit dev "user" 0
                (Some (config "Den" "9.9.9.9" "speaker"))) st in
  uids_unique (entries (snd r)).
Proof.
  intros dev st r.
  assert (H : uids_unique (entries st)) by solve_unique.
  apply (proj1 (@flow_keeps_uids_unique consts unit dev st H) "user" 0%nat
           (Some (config "Den" "9.9.9.9" "speaker")) (fst r) (snd r)).
  apply surjective_pairing.
Defined.

Lemma session_waits_witness :
  let dev := device "D" true (Some handshake) (Some (VStr "secret")) in
  let r := @run_step unit
             (@async_step_user consts unit dev 2
                (Some (config "Den" "9.9.9.9" "tv")))
             (@fresh unit [living_room] [] tt SOURCE_USER) in
  @started (flow (snd r)) = true.
Proof.
  intros dev r.
  apply (@session_waits consts unit dev "pair_tv" (snd r)).
  - apply device_handshakes.
  - eapply (@session_user consts unit dev [living_room] [] tt 0
              (Some (config "Den" "9.9.9.9" "tv"))).
    vm_compute. reflexivity.
  - reflexivity.
Defined.

Lemma user_step_keeps_unique_witness :
  let dev := device "D" true None None in
  let ui := config "Den" "9.9.9.9" "speaker" in
  let st := state [living_room; bedroom] [] SOURCE_USER in
  let r := @run_step unit (@async_step_user consts unit dev 0 (Some ui)) st in
  entries_unique (entries (snd r)).
Proof.
  intros dev ui st r.
  apply (@user_step_keeps_unique consts unit dev 0 st (snd r) ui "9.9.9.9"
           (VStr "Den") (VStr "Den") ui).
  - solve_wf.
  - split; solve_unique.
  - reflexivity.
  - reflexivity.
  - vm_compute. reflexivity.
Defined.

Lemma import_merge_keeps_hosts_witness :
  let dev := device "C" true None None in
  let ic := <[CONF_VOLUME_STEP := VInt 5]> (config "Den" "1.2.3.4:7345" "tv") in
  let st := state [bedroom; living_room] [] SOURCE_IMPORT in
  let r := @run_step unit (@async_step_import consts unit dev 0 ic) st in
  fst r = Ok (Abort "updated_entry") /\ hosts_unique (entries (snd r)).
Proof.
  intros dev ic st r. split; [vm_compute; reflexivity|].
  apply (@import_merge_keeps_hosts consts unit dev 0 st (snd r) ic [bedroom] []
           living_room "1.2.3.4:7345" (VStr "Living Room") (VStr "Den")
           (VInt 5) (fst r)); try reflexivity.
  - solve_wf.
  - solve_unique.
Defined.

Lemma import_is_idempotent_witness :
  let dev := device "C" true None None in
  let ic := <[CONF_VOLUME_STEP := VInt 5]> (config "Den" "1.2.3.4:7345" "tv") in
  let st := state [bedroom; living_room] [] SOURCE_IMPORT in
  let r := @run_step unit (@async_step_import consts unit dev 0 ic) st in
  fst r = Ok (Abort "updated_entry") /\
  @run_step unit (@async_step_import consts unit dev 0 ic) (snd r)
  = (Ok (Abort "already_setup"), snd r).
Proof.
  intros dev ic st r. split; [vm_compute; reflexivity|].
  apply (@import_is_idempotent consts unit dev 0 0 st ic [bedroom] []
           living_room "1.2.3.4:7345" (VStr "Living Room") (VStr "Den")
           (VInt 5)); try reflexivity.
  solve_wf.
Defined.

Lemma options_survive_import_witness :
  let dev := device "C" true None None in
  let ui : dict := {[ CONF_VOLUME_STEP := VInt 7 ]} in
  let ic := <[CONF_VOLUME_STEP := VInt 1]>
              (config "Living Room" "1.2.3.4:7345" "tv") in
  let es' := [bedroom; update_entry (entry_data living_room) ui living_room] in
  let st := state es' [] SOURCE_IMPORT in
  run_options_step 1 (Some ui) [bedroom; living_room]
  = Some (CreateEntry (VStr "") ui, es') /\
  @run_step unit (@async_step_import consts unit dev 0 ic) st
  = (Ok (Abort "already_setup"), st).
Proof.
  intros dev ui ic es' st.
  destruct (@options_survive_import consts unit dev 0 st ic ui [bedroom] []
              living_room "1.2.3.4:7345" (VStr "Living Room"))
    as [H1 H2]; try reflexivity.
  - solve_wf.
  - split; [exact H1 | apply H2; reflexivity].
Defined.

Lemma import_tv_without_token_warns_witness :
  let dev := device "C" true None None in
  let ic := config "Den" "9.9.9.9" "tv" in
  let st := state [living_room] [] SOURCE_IMPORT in
  let r := @run_step unit (@async_step_import consts unit dev 0 ic) st in
  fst r = Ok (Form "user" (@_get_config_schema consts (Some ic)) ∅ None) /\
  _must_show_form (flow (snd r)) = Some false /\
  @async_step_user consts unit dev 3 (Some ic) (snd r)
  = @async_step_pair_tv consts unit dev 3 None (@stashed consts unit ic (snd r)).
Proof.
  intros dev ic st r.
  destruct (@import_tv_without_token_warns consts unit dev 0 3 st ic "9.9.9.9"
              (VStr "Den") (VStr "tv")) as (H1 & _ & H2); try reflexivity.
  - solve_wf.
  - discriminate.
  - not_taken.
  - not_taken.
  - unfold r. rewrite H1. cbn [fst snd]. split; [reflexivity|].
    split; [reflexivity | exact H2].
Defined.

Lemma discovery_confirmed_without_conflict_witness :
  let dev := device "C" true None None in
  let ui := config "Den" "9.9.9.9:9000" "tv" in
  let st0 := state [living_room] [] SOURCE_ZEROCONF in
  let st := with_flow (set_must_show_form true (flow st0)) st0 in
  @run_step unit (@async_step_user consts unit dev 0 (Some ui)) st
  = (Ok (Form "user" (@_get_config_schema consts (Some ui)) ∅ None),
     with_flow
       (set_must_show_form false (flow (@saved_defaults consts unit ui st))) st).
Proof.
  intros dev ui st0 st.
  destruct (@discovery_confirmed_without_conflict consts unit dev 0 st ui
              "9.9.9.9:9000" (VStr "Den")) as [_ H];
    [solve_wf | reflexivity | reflexivity | reflexivity | reflexivity |].
  apply H; not_taken.
Defined.

Lemma discovery_form_defaults_witness :
  let dev := device "C" true None None in
  let di := discovery ("Den." ++ service_type) "9.9.9.9" in
  let st := state [living_room] [] SOURCE_ZEROCONF in
  exists sch errors st' val,
    @run_step unit (@async_step_zeroconf consts unit dev 0 (Some di)) st
    = (Ok (Form "user" sch errors None), st') /\
    schema_fields sch !! 0%nat = Some (Required CONF_NAME (VStr "Den"), v_str) /\
    schema_fields sch !! 1%nat
    = Some (Required CONF_HOST (VStr "9.9.9.9:9000"), v_str) /\
    schema_fields sch !! 2%nat
    = Some (Required CONF_DEVICE_CLASS DEVICE_CLASS_TV, val) /\
    entries st' = [living_room] /\ world st' = tt.
Proof.
  intros dev di st.
  apply (@discovery_form_defaults consts unit dev 0 st di "9.9.9.9" (VInt 9000)
           "Den" service_type DEVICE_CLASS_TV tt); try reflexivity.
  - solve_wf.
  - cbn. apply not_elem_of_nil.
  - not_taken.
Defined.


(** The device class of the form, written with a capital. *)
Lemma device_class_field_lowers_witness :
  exists dflt val,
    schema_fields (@_get_config_schema consts None) !! 2%nat
    = Some (Required CONF_DEVICE_CLASS dflt, val) /\
    validate (fun _ => None) val (VStr "Speaker") = Some (VStr "speaker") /\
    validate (fun _ => None) val (VStr "radio") = None.
Proof.
  destruct (device_class_field_lowers (consts := consts) (fun _ => None) None
              "Speaker" eq_refl) as (dflt & val & H1 & H2 & _).
  exists dflt, val. split; [exact H1|]. split; [rewrite H2; reflexivity|].
  vm_compute in H1. injection H1 as _ <-. reflexivity.
Defined.

End Examples.
